(** * gin-goll: the load-limiter middleware for Gin (package [limit])

    A shallow embedding of [gin_goll.go] and the properties of its
    admission pipeline: configuration validation at installation time,
    tenant-key resolution, submission to the limiter, and the dispatch
    to the accept, reject and error paths.

    The Go code works on a heap of [loadLimiterMiddleware] structs that
    it reaches through pointers, and it talks to three collaborators:
    the Gin request context, the goll limiter and the callbacks of the
    user.  Both are kept: the heap is an explicit store, and every call
    that leaves the package is an [Event] answered by the environment
    and recorded, with its answer, in the trace of the computation. *)

From Stdlib Require Import ZArith NArith String Lia DecimalString.
From stdpp Require Import base option list.

Open Scope string_scope.
Open Scope list_scope.

(** ** Values of the collaborators *)

(** Go values of the interface type [error] other than [nil]:
    [errors.New(text)], [fmt.Errorf(prefix + "%w", err)], and the
    run-time error raised when a nil pointer or a nil interface is
    dereferenced. *)
Inductive error : Type :=
| errors_New (text : string)
| fmt_Errorf_w (prefix : string) (err : error)
| runtime_nil_dereference.

(** [errors.Unwrap]. *)
Definition Unwrap (e : error) : option error :=
  match e with
  | fmt_Errorf_w _ err => Some err
  | _ => None
  end.

(** [err.Error()]. *)
Fixpoint Error (e : error) : string :=
  match e with
  | errors_New text => text
  | fmt_Errorf_w prefix err => String.append prefix (Error err)
  | runtime_nil_dereference =>
      "runtime error: invalid memory address or nil pointer dereference"
  end.

(** [goll.SubmitResult], with the fields the middleware reads.
    [RetryIn] is a [time.Duration]: a signed count of nanoseconds. *)
Record SubmitResult : Type := {
  Accepted : bool;
  RetryInAvailable : bool;
  RetryIn : Z
}.

(** [time.Duration.Milliseconds]: integer division by 1e6, truncated
    towards zero as Go divides. *)
Definition Milliseconds (d : Z) : Z := Z.quot d 1000000.

(** [fmt.Sprintf("%v", n)] at an [int64]: the decimal numeral. *)
Definition Sprintf_v (n : Z) : string := NilZero.string_of_int (Z.to_int n).

(** References to objects that the package only passes around: a
    [*gin.Context], a non-nil [goll.LoadLimiter], and non-nil function
    values of the three callback types. *)
Definition Context : Type := nat.
Definition LoadLimiter : Type := nat.
Definition KeyFunc : Type := nat.
Definition ResultFunc : Type := nat.
Definition ErrorFunc : Type := nat.

(** ** Data of the package *)

(** [Config]; [None] is Go's [nil]. *)
Record Config : Type := {
  Limiter : option LoadLimiter;
  DefaultRouteLoad : N;
  TenantKey : string;
  TenantKeyFunc : option KeyFunc;
  AcceptHandler : option ResultFunc;
  AbortHandler : option ResultFunc;
  ErrorHandler : option ErrorFunc
}.

(** [loadLimiterMiddleware]; [load] is a [uint64]. *)
Record loadLimiterMiddleware : Type := {
  limiter : option LoadLimiter;
  load : N;
  tenantKey : string;
  tenantKeyFunc : option KeyFunc;
  acceptHandler : option ResultFunc;
  abortHandler : option ResultFunc;
  errorHandler : option ErrorFunc
}.

(** The struct [v] after the assignment [v.load = n]. *)
Definition set_load (n : N) (v : loadLimiterMiddleware)
  : loadLimiterMiddleware :=
  {| limiter := limiter v;
     load := n;
     tenantKey := tenantKey v;
     tenantKeyFunc := tenantKeyFunc v;
     acceptHandler := acceptHandler v;
     abortHandler := abortHandler v;
     errorHandler := errorHandler v |}.

(** A [*loadLimiterMiddleware]: [None] is [nil], [Some a] the address
    [a] of a struct in the heap. *)
Definition pointer : Type := option nat.

(** ** Calls that leave the package *)

Inductive Event : Type -> Type :=
| gin_Next (c : Context) : Event unit
| gin_Header (c : Context) (key value : string) : Event unit
| gin_AbortWithStatus (c : Context) (code : Z) : Event unit
| goll_Submit (l : LoadLimiter) (tenantKey : string) (load : N)
    : Event (SubmitResult * option error)
| call_KeyFunc (f : KeyFunc) (c : Context) : Event (string * option error)
| call_ResultFunc (f : ResultFunc) (c : Context) (result : SubmitResult)
    : Event unit
| call_ErrorFunc (f : ErrorFunc) (c : Context) (err : error) : Event unit.

(** The three handling methods of an instance. *)
Inductive Method : Type := handleError_ | handleRejection_ | handleAccept_.

(** What a computation leaves in its trace: a call that left the
    package, with the answer it got, or the entry into one of the three
    handling methods. *)
Inductive Obs : Type :=
| Called {X : Type} (e : Event X) (x : X)
| Entered (m : Method).

(** How often the method [m] was entered in a trace. *)
Definition entered (m : Method) (o : Obs) : bool :=
  match o, m with
  | Entered handleError_, handleError_ => true
  | Entered handleRejection_, handleRejection_ => true
  | Entered handleAccept_, handleAccept_ => true
  | _, _ => false
  end.

Fixpoint fires (m : Method) (t : list Obs) : nat :=
  match t with
  | [] => 0
  | o :: t' => (if entered m o then 1 else 0) + fires m t'
  end.

(** The calls of each kind in a trace, with their arguments and their
    answers. *)
Definition as_Submit (o : Obs)
  : option (LoadLimiter * string * N * (SubmitResult * option error)) :=
  match o with
  | Called e x =>
      match e in Event X return X -> option _ with
      | goll_Submit l k n => fun x => Some (l, k, n, x)
      | _ => fun _ => None
      end x
  | Entered _ => None
  end.

Definition as_KeyFunc (o : Obs)
  : option (KeyFunc * Context * (string * option error)) :=
  match o with
  | Called e x =>
      match e in Event X return X -> option _ with
      | call_KeyFunc f c => fun x => Some (f, c, x)
      | _ => fun _ => None
      end x
  | Entered _ => None
  end.

Definition as_Header (o : Obs) : option (Context * string * string) :=
  match o with
  | Called e _ =>
      match e with
      | gin_Header c k v => Some (c, k, v)
      | _ => None
      end
  | Entered _ => None
  end.

Definition as_Next (o : Obs) : option Context :=
  match o with
  | Called e _ =>
      match e with
      | gin_Next c => Some c
      | _ => None
      end
  | Entered _ => None
  end.

(** The calls of a kind in a trace: to the limiter, to the key
    function, and to the Gin context. *)
Definition is_Submit (o : Obs) : bool :=
  match as_Submit o with Some _ => true | None => false end.

Definition is_KeyFunc (o : Obs) : bool :=
  match as_KeyFunc o with Some _ => true | None => false end.

Definition on_context (o : Obs) : bool :=
  match o with
  | Called e _ =>
      match e with
      | gin_Next _ | gin_Header _ _ _ | gin_AbortWithStatus _ _ => true
      | _ => false
      end
  | Entered _ => false
  end.

Fixpoint calls (kind : Obs -> bool) (t : list Obs) : nat :=
  match t with
  | [] => 0
  | o :: t' => (if kind o then 1 else 0) + calls kind t'
  end.

(** ** A concrete environment

    A limiter with a capacity of 10 units of load, and callbacks with
    fixed answers, to run the middleware on. *)
Module Demo.

(** The load let through so far. *)
Definition World : Type := N.

Definition MaxLoad : N := 10.

(** The answers of a limiter: the load is granted, the limiter is full
    and says when to retry, or the load is just refused. *)
Definition granted : SubmitResult :=
  {| Accepted := true; RetryInAvailable := false; RetryIn := 0 |}.

Definition full : SubmitResult :=
  {| Accepted := false; RetryInAvailable := true; RetryIn := 1500000000 |}.

Definition refused : SubmitResult :=
  {| Accepted := false; RetryInAvailable := false; RetryIn := 0 |}.

(** Limiter 0 grants load up to [MaxLoad] and asks to retry in 1.5 s
    beyond; limiter 1 fails; any other one rejects without a delay. *)
Definition Submit (l : LoadLimiter) (load : N) (w : World)
  : (SubmitResult * option error) * World :=
  match l with
  | 0 =>
      if (w + load <=? MaxLoad)%N
      then (granted, None, (w + load)%N)
      else (full, None, w)
  | 1 => (refused, Some (errors_New "sync failed"), w)
  | _ => (refused, None, w)
  end.

(** Key function 0 answers with an address, 1 fails, any other one
    answers with the empty string. *)
Definition KeyOf (f : KeyFunc) : string * option error :=
  match f with
  | 0 => ("10.0.0.1", None)
  | 1 => ("", Some (errors_New "no client address"))
  | _ => ("", None)
  end.

Definition respond (X : Type) (e : Event X) (w : World) : X * World :=
  match e in Event X return X * World with
  | goll_Submit l _ load => Submit l load w
  | call_KeyFunc f _ => (KeyOf f, w)
  | gin_Next _ => (tt, w)
  | gin_Header _ _ _ => (tt, w)
  | gin_AbortWithStatus _ _ => (tt, w)
  | call_ResultFunc _ _ _ => (tt, w)
  | call_ErrorFunc _ _ _ => (tt, w)
  end.

(** A configuration with a key function and no handlers, and one with
    a fixed key and all three handlers. *)
Definition by_address : Config :=
  {| Limiter := Some 0; DefaultRouteLoad := 1; TenantKey := "";
     TenantKeyFunc := Some 0; AcceptHandler := None; AbortHandler := None;
     ErrorHandler := None |}.

Definition global : Config :=
  {| Limiter := Some 0; DefaultRouteLoad := 1; TenantKey := "all";
     TenantKeyFunc := None; AcceptHandler := Some 7; AbortHandler := Some 8;
     ErrorHandler := Some 9 |}.

(** Configurations whose key function fails, and returns the empty
    string. *)
Definition failing_key : Config :=
  {| Limiter := Some 0; DefaultRouteLoad := 1; TenantKey := "";
     TenantKeyFunc := Some 1; AcceptHandler := None; AbortHandler := None;
     ErrorHandler := None |}.

Definition anonymous : Config :=
  {| Limiter := Some 0; DefaultRouteLoad := 1; TenantKey := "";
     TenantKeyFunc := Some 2; AcceptHandler := None; AbortHandler := None;
     ErrorHandler := None |}.

(** A configuration without any source of the tenant key. *)
Definition unkeyed : Config :=
  {| Limiter := Some 0; DefaultRouteLoad := 1; TenantKey := "";
     TenantKeyFunc := None; AcceptHandler := None; AbortHandler := None;
     ErrorHandler := None |}.

(** The zero value of [Config]. *)
Definition nothing : Config :=
  {| Limiter := None; DefaultRouteLoad := 0; TenantKey := "";
     TenantKeyFunc := None; AcceptHandler := None; AbortHandler := None;
     ErrorHandler := None |}.

(** The struct that [NewLimiterMiddleware] makes of a configuration,
    and a heap with four of them. *)
Definition instance (config : Config) : loadLimiterMiddleware :=
  {| limiter := Limiter config;
     load := DefaultRouteLoad config;
     acceptHandler := AcceptHandler config;
     abortHandler := AbortHandler config;
     errorHandler := ErrorHandler config;
     tenantKey := TenantKey config;
     tenantKeyFunc := TenantKeyFunc config |}.

Definition routes : list loadLimiterMiddleware :=
  [instance by_address; instance global; instance failing_key;
   instance anonymous].

End Demo.

(** ** The monad of the package's code *)

Inductive Result (A : Type) : Type :=
| Returned (a : A)
| Panicked (v : error).
Arguments Returned {A} a.
Arguments Panicked {A} v.

Section Middleware.

(** The state of the collaborators, and how they answer a call.  A
    collaborator is taken by its Go signature: a call returns a value
    of its result type. *)
Variable W : Type.
Variable respond : forall X : Type, Event X -> W -> X * W.

Record State : Type := {
  heap : list loadLimiterMiddleware;
  world : W
}.

Record Outcome (A : Type) : Type := {
  result : Result A;
  events : list Obs;
  final : State
}.
Arguments result {A} o.
Arguments events {A} o.
Arguments final {A} o.

Definition M (A : Type) : Type := State -> Outcome A.

Definition ret {A : Type} (a : A) : M A :=
  fun s => {| result := Returned a; events := []; final := s |}.

Definition panic {A : Type} (v : error) : M A :=
  fun s => {| result := Panicked v; events := []; final := s |}.

Definition bind {A B : Type} (m : M A) (k : A -> M B) : M B :=
  fun s =>
    match m s with
    | {| result := Returned a; events := t; final := s' |} =>
        match k a s' with
        | {| result := r; events := t'; final := s'' |} =>
            {| result := r; events := t ++ t'; final := s'' |}
        end
    | {| result := Panicked v; events := t; final := s' |} =>
        {| result := Panicked v; events := t; final := s' |}
    end.

Notation "x <- m ;; k" := (bind m (fun x => k))
  (at level 100, m at next level, right associativity).
Notation "m ;;; k" := (bind m (fun _ => k))
  (at level 100, right associativity).

(** A call to a collaborator. *)
Definition call {X : Type} (e : Event X) : M X :=
  fun s =>
    let a := respond X e (world s) in
    {| result := Returned (fst a);
       events := [Called e (fst a)];
       final := {| heap := heap s; world := snd a |} |}.

(** Entry into a handling method. *)
Definition enter (m : Method) : M unit :=
  fun s => {| result := Returned tt; events := [Entered m]; final := s |}.

(** [&loadLimiterMiddleware{...}]: a fresh struct at the next address. *)
Definition new (v : loadLimiterMiddleware) : M pointer :=
  fun s =>
    {| result := Returned (Some (length (heap s)));
       events := [];
       final := {| heap := heap s ++ [v]; world := world s |} |}.

(** Reading through a pointer; a nil pointer panics. *)
Definition deref (p : pointer) : M loadLimiterMiddleware :=
  fun s =>
    match p with
    | Some a =>
        match heap s !! a with
        | Some v => ret v s
        | None => panic runtime_nil_dereference s
        end
    | None => panic runtime_nil_dereference s
    end.

(** [p.load = n]: the struct at [p] is overwritten in place. *)
Definition store_load (p : pointer) (n : N) : M unit :=
  v <- deref p ;;
  fun s =>
    match p with
    | Some a =>
        {| result := Returned tt;
           events := [];
           final := {| heap := <[a := set_load n v]> (heap s);
                       world := world s |} |}
    | None => panic runtime_nil_dereference s
    end.

(** A [gin.HandlerFunc]. *)
Definition HandlerFunc : Type := Context -> M unit.

(** ** The code of [gin_goll.go] *)

Definition NewLimiterMiddleware (config : Config) : M pointer :=
  new {| limiter := Limiter config;
         load := DefaultRouteLoad config;
         acceptHandler := AcceptHandler config;
         abortHandler := AbortHandler config;
         errorHandler := ErrorHandler config;
         tenantKey := TenantKey config;
         tenantKeyFunc := TenantKeyFunc config |}.

Definition clone (instance : pointer) : M pointer :=
  i <- deref instance ;;
  new {| limiter := limiter i;
         load := load i;
         acceptHandler := acceptHandler i;
         abortHandler := abortHandler i;
         errorHandler := errorHandler i;
         tenantKey := tenantKey i;
         tenantKeyFunc := tenantKeyFunc i |}.

Definition handleError (instance : pointer) (c : Context) (err : error)
  : M unit :=
  enter handleError_ ;;;
  i <- deref instance ;;
  match errorHandler i with
  | Some f => call (call_ErrorFunc f c err)
  | None => panic (fmt_Errorf_w "error submitting load request: " err)
  end.

Definition handleRejection (instance : pointer) (c : Context)
  (res : SubmitResult) : M unit :=
  enter handleRejection_ ;;;
  i <- deref instance ;;
  match abortHandler i with
  | Some f => call (call_ResultFunc f c res)
  | None =>
      (if RetryInAvailable res
       then call (gin_Header c "X-Retry-In"
                    (Sprintf_v (Milliseconds (RetryIn res))))
       else ret tt) ;;;
      call (gin_AbortWithStatus c 429)
  end.

Definition handleAccept (instance : pointer) (c : Context)
  (res : SubmitResult) : M unit :=
  enter handleAccept_ ;;;
  i <- deref instance ;;
  match acceptHandler i with
  | Some f => call (call_ResultFunc f c res)
  | None => call (gin_Next c)
  end.

Definition effectiveTenantKey (instance : pointer) (c : Context)
  : M (string * option error) :=
  i <- deref instance ;;
  match tenantKeyFunc i with
  | Some f => call (call_KeyFunc f c)
  | None => ret (tenantKey i, None)
  end.

Definition validateConfig (config : pointer) : M (option error) :=
  match config with
  | None => ret (Some (errors_New "nil config"))
  | Some _ =>
      i <- deref config ;;
      if bool_decide (limiter i = None)
      then ret (Some (errors_New "limiter is required"))
      else if (tenantKey i =? "") && bool_decide (tenantKeyFunc i = None)
      then ret (Some (errors_New
                        "one of TenantKey or TenantKeyFunc is required"))
      else if negb (tenantKey i =? "")
              && negb (bool_decide (tenantKeyFunc i = None))
      then ret (Some (errors_New
                        "only one of TenantKey or TenantKeyFunc is required"))
      else ret None
  end.

(** The function literal that [routeLoadLimiter] returns; it closes
    over the pointer [instance]. *)
Definition routeLoadLimiter_func1 (instance : pointer) : HandlerFunc :=
  fun c =>
    i <- deref instance ;;
    if (load i <=? 0)%N
    then call (gin_Next c)
    else
      r <- effectiveTenantKey instance c ;;
      let (tenantKey, err) := r in
      match err with
      | Some err => handleError instance c err
      | None =>
          i <- deref instance ;;
          match limiter i with
          | None => panic runtime_nil_dereference
          | Some l =>
              r <- call (goll_Submit l tenantKey (load i)) ;;
              let (res, err) := r in
              match err with
              | Some err => handleError instance c err
              | None =>
                  if negb (Accepted res)
                  then handleRejection instance c res
                  else handleAccept instance c res
              end
          end
      end.

Definition routeLoadLimiter (instance : pointer) : M HandlerFunc :=
  err <- validateConfig instance ;;
  match err with
  | Some err => panic err
  | None => ret (routeLoadLimiter_func1 instance)
  end.

Definition Default (instance : pointer) : M HandlerFunc :=
  routeLoadLimiter instance.

Definition WithLoad (instance : pointer) (load : N) : M HandlerFunc :=
  cloned <- clone instance ;;
  store_load cloned load ;;;
  Default cloned.

(** ** Notions the properties are stated with *)

(** The configuration passes the validation: a limiter, and exactly one
    of a non-empty [tenantKey] and a [tenantKeyFunc]. *)
Definition valid (i : loadLimiterMiddleware) : Prop :=
  limiter i <> None /\
  ((tenantKey i = "" /\ tenantKeyFunc i <> None) \/
   (tenantKey i <> "" /\ tenantKeyFunc i = None)).

(** [s] is a state reached later than [s1]: structs have been
    allocated since, none has been written. *)
Definition later (s1 s : State) : Prop := heap s1 `prefix_of` heap s.

(** [installed h i s1]: the handler [h] was returned by [Default] or by
    [WithLoad], [s1] is the state right after, and [i] are the fields it
    was installed with: those of the receiver for [Default], those of
    the receiver with the load [n] for [WithLoad n]. *)
Inductive installed (h : HandlerFunc)
  : loadLimiterMiddleware -> State -> Prop :=
| installed_Default (p : pointer) (s0 : State) (i : loadLimiterMiddleware) :
    result (deref p s0) = Returned i ->
    result (Default p s0) = Returned h ->
    installed h i (final (Default p s0))
| installed_WithLoad (p : pointer) (n : N) (s0 : State)
    (i : loadLimiterMiddleware) :
    result (deref p s0) = Returned i ->
    result (WithLoad p n s0) = Returned h ->
    installed h (set_load n i) (final (WithLoad p n s0)).

(** The computation ends in a panic. *)
Definition panics {A : Type} (o : Outcome A) : Prop :=
  exists v, result o = Panicked v.


(** An outcome with one more observation in front. *)
Definition after {A : Type} (o : Obs) (out : Outcome A) : Outcome A :=
  {| result := result out; events := o :: events out; final := final out |}.

(** [continues o pre out]: the computation [o] consists of the
    observations [pre] followed by the computation [out], and of
    nothing after it. *)
Definition continues {A : Type} (o : Outcome A) (pre : list Obs)
  (out : Outcome A) : Prop :=
  result o = result out /\
  events o = pre ++ events out /\
  final o = final out.

(** The tenant key [key] was resolved, leaving the observations [pre]:
    none for a fixed key, the call of the key function otherwise. *)
Definition resolved (i : loadLimiterMiddleware) (c : Context)
  (pre : list Obs) (key : string) : Prop :=
  (tenantKeyFunc i = None /\ pre = [] /\ key = tenantKey i) \/
  (exists f, tenantKeyFunc i = Some f /\
             pre = [Called (call_KeyFunc f c) (key, None)]).

(** The four ways through a request with a positive load, for the
    handler of the struct [i] at the address [a], from the state [s]. *)
Inductive request_path (a : nat) (i : loadLimiterMiddleware) (c : Context)
  (s : State) (o : Outcome unit) : Prop :=
| resolution_failed (f : KeyFunc) (key : string) (err : error) (s2 : State) :
    tenantKeyFunc i = Some f -> heap s2 = heap s ->
    continues o [Called (call_KeyFunc f c) (key, Some err)]
      (handleError (Some a) c err s2) ->
    request_path a i c s o
| submission_failed (pre : list Obs) (key : string) (l : LoadLimiter)
    (res : SubmitResult) (err : error) (s3 : State) :
    resolved i c pre key -> limiter i = Some l -> heap s3 = heap s ->
    continues o
      (pre ++ [Called (goll_Submit l key (load i)) (res, Some err)])
      (handleError (Some a) c err s3) ->
    request_path a i c s o
| rejected (pre : list Obs) (key : string) (l : LoadLimiter)
    (res : SubmitResult) (s3 : State) :
    resolved i c pre key -> limiter i = Some l -> heap s3 = heap s ->
    Accepted res = false ->
    continues o
      (pre ++ [Called (goll_Submit l key (load i)) (res, None)])
      (handleRejection (Some a) c res s3) ->
    request_path a i c s o
| accepted (pre : list Obs) (key : string) (l : LoadLimiter)
    (res : SubmitResult) (s3 : State) :
    resolved i c pre key -> limiter i = Some l -> heap s3 = heap s ->
    Accepted res = true ->
    continues o
      (pre ++ [Called (goll_Submit l key (load i)) (res, None)])
      (handleAccept (Some a) c res s3) ->
    request_path a i c s o.

(** What the validation refuses in a configuration: no limiter, or no
    source of the tenant key, or both sources.  A [TenantKey] is
    specified when it is not the empty string, a [TenantKeyFunc] when it
    is not nil. *)
Definition misconfigured (config : Config) : Prop :=
  Limiter config = None \/
  (TenantKey config = "" /\ TenantKeyFunc config = None) \/
  (TenantKey config <> "" /\ TenantKeyFunc config <> None).

(** ** Auxiliary facts *)

Example Milliseconds_truncates :
  Milliseconds 1500000000 = 1500%Z /\ Milliseconds 1999999 = 1%Z /\
  Milliseconds (-1999999) = (-1)%Z.
Proof. repeat split. Qed.

Example Sprintf_v_decimal :
  Sprintf_v 1500 = "1500" /\ Sprintf_v 0 = "0" /\ Sprintf_v (-42) = "-42".
Proof. repeat split. Qed.

Example Error_of_wrapped :
  Error (fmt_Errorf_w "error submitting load request: "
           (errors_New "sync failed"))
  = "error submitting load request: sync failed".
Proof. reflexivity. Qed.

Lemma fires_app (m : Method) (t1 t2 : list Obs) :
  fires m (t1 ++ t2) = fires m t1 + fires m t2.
Proof.
  induction t1 as [|o t1 IH]; cbn; [reflexivity|].
  rewrite IH. lia.
Qed.

Lemma deref_Some (a : nat) (i : loadLimiterMiddleware) (s : State) :
  heap s !! a = Some i -> deref (Some a) s = ret i s.
Proof. intros H. unfold deref. rewrite H. reflexivity. Qed.

Lemma deref_Returned (p : pointer) (s : State) (i : loadLimiterMiddleware) :
  result (deref p s) = Returned i ->
  exists a, p = Some a /\ heap s !! a = Some i.
Proof.
  unfold deref. destruct p as [a|]; [|discriminate].
  destruct (heap s !! a) as [v|] eqn:E; cbn; [|discriminate].
  intros [= <-]. eauto.
Qed.

Lemma later_lookup (s1 s : State) (a : nat) (i : loadLimiterMiddleware) :
  later s1 s -> heap s1 !! a = Some i -> heap s !! a = Some i.
Proof. intros L H. exact (prefix_lookup_Some _ _ _ _ H L). Qed.

Lemma validateConfig_valid (a : nat) (i : loadLimiterMiddleware) (s : State) :
  heap s !! a = Some i ->
  (valid i -> validateConfig (Some a) s = ret None s) /\
  (~ valid i ->
   exists err, validateConfig (Some a) s = ret (Some (errors_New err)) s).
Proof.
  intros H. unfold validateConfig, bind. rewrite (deref_Some _ _ _ H). cbn.
  unfold valid.
  destruct (limiter i) as [l|]; cbn.
  2:{ split; [intros [? _]; congruence | eauto]. }
  destruct (String.eqb_spec (tenantKey i) "") as [E|E];
    destruct (tenantKeyFunc i) as [f|]; cbn.
  - split; [reflexivity|]. intros N. exfalso. apply N. split; [congruence|].
    left. split; congruence.
  - split; [|eauto]. intros [_ [[_ ?]|[? _]]]; congruence.
  - split; [|eauto]. intros [_ [[? _]|[_ ?]]]; congruence.
  - split; [reflexivity|]. intros N. exfalso. apply N. split; [congruence|].
    right. split; congruence.
Qed.

Lemma valid_dec (i : loadLimiterMiddleware) : valid i \/ ~ valid i.
Proof.
  unfold valid.
  destruct (limiter i) as [l|]; [|right; intros [? _]; congruence].
  destruct (String.eqb_spec (tenantKey i) "") as [E|E];
    destruct (tenantKeyFunc i) as [f|].
  - left. split; [congruence|]. left. split; congruence.
  - right. intros [_ [[_ ?]|[? _]]]; congruence.
  - right. intros [_ [[? _]|[_ ?]]]; congruence.
  - left. split; [congruence|]. right. split; congruence.
Qed.

Lemma routeLoadLimiter_run (a : nat) (i : loadLimiterMiddleware) (s : State) :
  heap s !! a = Some i ->
  events (routeLoadLimiter (Some a) s) = [] /\
  final (routeLoadLimiter (Some a) s) = s /\
  (valid i ->
   result (routeLoadLimiter (Some a) s)
   = Returned (routeLoadLimiter_func1 (Some a))) /\
  (~ valid i ->
   exists err,
     result (routeLoadLimiter (Some a) s) = Panicked (errors_New err)).
Proof.
  intros H. destruct (validateConfig_valid a i s H) as [V NV].
  unfold routeLoadLimiter, bind.
  destruct (valid_dec i) as [Hv|Hv].
  - rewrite (V Hv). cbn. repeat split; tauto.
  - destruct (NV Hv) as [err E]. rewrite E. cbn.
    repeat split; [tauto|eauto].
Qed.

Lemma routeLoadLimiter_Returned (p : pointer) (s : State) (h : HandlerFunc) :
  result (routeLoadLimiter p s) = Returned h ->
  exists a i,
    p = Some a /\ heap s !! a = Some i /\ valid i /\
    h = routeLoadLimiter_func1 (Some a) /\
    final (routeLoadLimiter p s) = s.
Proof.
  destruct p as [a|]; [|discriminate].
  destruct (heap s !! a) as [i|] eqn:E.
  - destruct (routeLoadLimiter_run a i s E) as (_ & F & V & NV).
    destruct (valid_dec i) as [Hv|Hv].
    + rewrite (V Hv). intros [= <-]. exists a, i. tauto.
    + destruct (NV Hv) as [err R]. rewrite R. discriminate.
  - unfold routeLoadLimiter, validateConfig, bind, deref. rewrite E.
    discriminate.
Qed.

Lemma insert_snoc (l : list loadLimiterMiddleware)
  (x y : loadLimiterMiddleware) :
  <[length l := y]> (l ++ [x]) = l ++ [y].
Proof.
  rewrite <- (Nat.add_0_r (length l)). rewrite insert_app_r. reflexivity.
Qed.

Lemma lookup_snoc (l : list loadLimiterMiddleware)
  (x : loadLimiterMiddleware) :
  (l ++ [x]) !! length l = Some x.
Proof. apply list_lookup_middle. reflexivity. Qed.

(** [WithLoad] allocates the copy with the new load and hands it to
    [routeLoadLimiter]. *)
Lemma WithLoad_run (a : nat) (i : loadLimiterMiddleware) (n : N) (s : State) :
  heap s !! a = Some i ->
  let s' := {| heap := heap s ++ [set_load n i]; world := world s |} in
  let o := routeLoadLimiter (Some (length (heap s))) s' in
  result (WithLoad (Some a) n s) = result o /\
  events (WithLoad (Some a) n s) = events o /\
  final (WithLoad (Some a) n s) = final o.
Proof.
  intros H s' o.
  unfold WithLoad, clone, store_load, Default, bind, new, deref. cbn.
  rewrite H. cbn. rewrite lookup_snoc. cbn. rewrite insert_snoc.
  subst o s'. unfold set_load. cbn.
  destruct (routeLoadLimiter _ _) as [[?|?] ? ?]; cbn; repeat split.
Qed.

(** An installed handler is the closure of [routeLoadLimiter] over a
    pointer to a struct with the fields it was installed with, and
    these passed the validation. *)
Lemma installed_bound (h : HandlerFunc) (i : loadLimiterMiddleware)
  (s1 : State) :
  installed h i s1 ->
  exists a,
    h = routeLoadLimiter_func1 (Some a) /\ heap s1 !! a = Some i /\ valid i.
Proof.
  intros [p s0 i0 H D | p n s0 i0 H D].
  - unfold Default in *.
    destruct (routeLoadLimiter_Returned _ _ _ D) as (a & i' & -> & L & V & -> & F).
    rewrite F. apply deref_Returned in H as (a' & [= <-] & L').
    rewrite L in L'. injection L' as ->. eauto.
  - apply deref_Returned in H as (a & -> & L).
    destruct (WithLoad_run a i0 n s0 L) as (R & _ & F).
    rewrite F. rewrite R in D.
    apply routeLoadLimiter_Returned in D as (a' & i' & [= <-] & L' & V & -> & F').
    rewrite F'. cbn in L'. rewrite lookup_snoc in L'. injection L' as <-.
    exists (length (heap s0)). cbn. rewrite lookup_snoc. auto.
Qed.

(** At request time the handler still finds the fields it was
    installed with. *)
Lemma installed_later (h : HandlerFunc) (i : loadLimiterMiddleware)
  (s1 s : State) :
  installed h i s1 -> later s1 s ->
  exists a,
    h = routeLoadLimiter_func1 (Some a) /\ heap s !! a = Some i /\ valid i.
Proof.
  intros I L. destruct (installed_bound h i s1 I) as (a & -> & H & V).
  exists a. eauto using later_lookup.
Qed.


(** *** Stepping through the monad *)

Lemma bind_ret_l {A B : Type} (a : A) (k : A -> M B) (s : State) :
  bind (ret a) k s = k a s.
Proof. unfold bind, ret. destruct (k a s) as [r t s']. reflexivity. Qed.

Lemma bind_deref {B : Type} (a : nat) (i : loadLimiterMiddleware)
  (k : loadLimiterMiddleware -> M B) (s : State) :
  heap s !! a = Some i -> bind (deref (Some a)) k s = k i s.
Proof.
  intros H. unfold bind. rewrite (deref_Some a i s H). cbn.
  destruct (k i s) as [r t s']. reflexivity.
Qed.

Lemma bind_assoc {A B C : Type} (m : M A) (k1 : A -> M B) (k2 : B -> M C)
  (s : State) :
  bind (bind m k1) k2 s = bind m (fun x => bind (k1 x) k2) s.
Proof.
  unfold bind. destruct (m s) as [[a|v] t s']; [|reflexivity].
  destruct (k1 a s') as [[b|v] t1 s1]; [|reflexivity].
  destruct (k2 b s1) as [r t2 s2]. rewrite app_assoc. reflexivity.
Qed.

Lemma bind_call {X B : Type} (e : Event X) (k : X -> M B) (s : State) :
  bind (call e) k s
  = after (Called e (respond X e (world s)).1)
      (k (respond X e (world s)).1
         {| heap := heap s; world := (respond X e (world s)).2 |}).
Proof.
  unfold bind, call, after. cbn.
  destruct (k _ _) as [r t s']. reflexivity.
Qed.

Lemma bind_enter {B : Type} (m : Method) (k : unit -> M B) (s : State) :
  bind (enter m) k s = after (Entered m) (k tt s).
Proof.
  unfold bind, enter, after. cbn. destruct (k tt s) as [r t s']. reflexivity.
Qed.

Ltac step H :=
  first
    [ rewrite bind_assoc
    | erewrite bind_deref by (cbn; exact H)
    | rewrite bind_call
    | rewrite bind_enter
    | rewrite bind_ret_l ].

Lemma continues_refl {A : Type} (o : Outcome A) : continues o [] o.
Proof. repeat split. Qed.

Lemma continues_after {A : Type} (ob : Obs) (o : Outcome A)
  (pre : list Obs) (out : Outcome A) :
  continues o pre out -> continues (after ob o) (ob :: pre) out.
Proof.
  intros (R & E & F). unfold continues, after. cbn. rewrite E. auto.
Qed.

(** *** The run of a request *)

Lemma request_zero (a : nat) (i : loadLimiterMiddleware) (c : Context)
  (s : State) :
  heap s !! a = Some i -> load i = 0%N ->
  routeLoadLimiter_func1 (Some a) c s = call (gin_Next c) s.
Proof.
  intros H Z. unfold routeLoadLimiter_func1. step H. rewrite Z. reflexivity.
Qed.

Lemma request_run (a : nat) (i : loadLimiterMiddleware) (c : Context)
  (s : State) :
  heap s !! a = Some i -> valid i -> (0 < load i)%N ->
  request_path a i c s (routeLoadLimiter_func1 (Some a) c s).
Proof.
  intros H [VL _] P. apply N.leb_gt in P.
  assert (submit : forall key pre s2 o,
    resolved i c pre key -> heap s2 = heap s ->
    continues o pre
      ((i0 <- deref (Some a) ;;
        match limiter i0 with
        | Some l0 =>
            r <- call (goll_Submit l0 key (load i0)) ;;
            (let (res0, err0) := r in
             match err0 with
             | Some err1 => handleError (Some a) c err1
             | None =>
                 if negb (Accepted res0)
                 then handleRejection (Some a) c res0
                 else handleAccept (Some a) c res0
             end)
        | None => panic runtime_nil_dereference
        end) s2) ->
    request_path a i c s o).
  { intros key pre s2 o R Hs2 (Cr & Ce & Cf).
    assert (H2 : heap s2 !! a = Some i) by (rewrite Hs2; exact H).
    revert Cr Ce Cf. step H2.
    destruct (limiter i) as [l|] eqn:El; [|congruence].
    step H2.
    destruct (respond _ (goll_Submit l key (load i)) (world s2))
      as [[res [err|]] w3]; cbn [fst snd].
    - intros Cr Ce Cf.
      apply (submission_failed _ _ _ _ _ pre key l res err
               {| heap := heap s2; world := w3 |}); auto.
      repeat split; [exact Cr | | exact Cf].
      rewrite Ce. cbn. rewrite <- app_assoc. reflexivity.
    - destruct (Accepted res) eqn:EA; cbn [negb]; intros Cr Ce Cf.
      + apply (accepted _ _ _ _ _ pre key l res
                 {| heap := heap s2; world := w3 |}); auto.
        repeat split; [exact Cr | | exact Cf].
        rewrite Ce. cbn. rewrite <- app_assoc. reflexivity.
      + apply (rejected _ _ _ _ _ pre key l res
                 {| heap := heap s2; world := w3 |}); auto.
        repeat split; [exact Cr | | exact Cf].
        rewrite Ce. cbn. rewrite <- app_assoc. reflexivity. }
  unfold routeLoadLimiter_func1. step H. rewrite P.
  unfold effectiveTenantKey. step H. step H.
  destruct (tenantKeyFunc i) as [f|] eqn:Ef.
  - step H.
    destruct (respond _ (call_KeyFunc f c) (world s)) as [[key [err|]] w2];
      cbn [fst snd].
    + apply (resolution_failed _ _ _ _ _ f key err
               {| heap := heap s; world := w2 |}); auto.
      apply continues_after, continues_refl.
    + apply (submit key [Called (call_KeyFunc f c) (key, None)]
               {| heap := heap s; world := w2 |}).
      * right. eauto.
      * reflexivity.
      * apply continues_after, continues_refl.
  - step H. apply (submit (tenantKey i) [] s).
    + left. auto.
    + reflexivity.
    + apply continues_refl.
Qed.

Lemma handleError_run (a : nat) (i : loadLimiterMiddleware) (c : Context)
  (err : error) (s : State) :
  heap s !! a = Some i ->
  let o := handleError (Some a) c err s in
  heap (final o) = heap s /\
  match errorHandler i with
  | Some f =>
      events o = [Entered handleError_; Called (call_ErrorFunc f c err) tt] /\
      result o = Returned tt
  | None =>
      events o = [Entered handleError_] /\
      result o
      = Panicked (fmt_Errorf_w "error submitting load request: " err)
  end.
Proof.
  intros H. cbn zeta. unfold handleError. step H. step H.
  destruct (errorHandler i) as [f|]; unfold call, panic, after; cbn.
  - destruct (respond _ _ _) as [[] w']. cbn. auto.
  - auto.
Qed.

Lemma handleRejection_run (a : nat) (i : loadLimiterMiddleware) (c : Context)
  (res : SubmitResult) (s : State) :
  heap s !! a = Some i ->
  let o := handleRejection (Some a) c res s in
  heap (final o) = heap s /\
  result o = Returned tt /\
  events o
  = Entered handleRejection_ ::
    match abortHandler i with
    | Some f => [Called (call_ResultFunc f c res) tt]
    | None =>
        (if RetryInAvailable res
         then [Called (gin_Header c "X-Retry-In"
                         (Sprintf_v (Milliseconds (RetryIn res)))) tt]
         else [])
        ++ [Called (gin_AbortWithStatus c 429) tt]
    end.
Proof.
  intros H. cbn zeta. unfold handleRejection. step H. step H.
  destruct (abortHandler i) as [f|].
  - unfold call, after; cbn. destruct (respond _ _ _) as [[] w']. cbn. auto.
  - destruct (RetryInAvailable res).
    + step H. unfold call, after; cbn.
      destruct (respond _ _ _) as [[] w']. cbn.
      destruct (respond _ _ _) as [[] w'']. cbn. auto.
    + step H. unfold call, after; cbn.
      destruct (respond _ _ _) as [[] w']. cbn. auto.
Qed.

Lemma handleAccept_run (a : nat) (i : loadLimiterMiddleware) (c : Context)
  (res : SubmitResult) (s : State) :
  heap s !! a = Some i ->
  let o := handleAccept (Some a) c res s in
  heap (final o) = heap s /\
  result o = Returned tt /\
  events o
  = [Entered handleAccept_;
     match acceptHandler i with
     | Some f => Called (call_ResultFunc f c res) tt
     | None => Called (gin_Next c) tt
     end].
Proof.
  intros H. cbn zeta. unfold handleAccept. step H. step H.
  destruct (acceptHandler i) as [f|]; unfold call, after; cbn;
    destruct (respond _ _ _) as [[] w']; cbn; auto.
Qed.

(** *** Reading traces *)

Ltac inv_call F H :=
  apply (f_equal F) in H; cbn in H;
  first [ discriminate H | injection H as ?; subst ].

Ltac find_call F H :=
  cbn in H;
  repeat (destruct H as [H|H]; [ inv_call F H | ]);
  try contradiction.

(** The four paths of a request, each with the run of its handling
    method. *)
Ltac paths a i c s H V P :=
  let same := fresh "same" in
  destruct (request_run a i c s H V P) as
    [ f_ key_ err_ s_ Ef same (Cr & Ce & Cf)
    | pre_ key_ l_ res_ err_ s_ R El same (Cr & Ce & Cf)
    | pre_ key_ l_ res_ s_ R El same EA (Cr & Ce & Cf)
    | pre_ key_ l_ res_ s_ R El same EA (Cr & Ce & Cf) ];
  [ destruct (handleError_run a i c err_ s_) as (Hh & Hx);
    [ rewrite same; exact H | ]
  | destruct (handleError_run a i c err_ s_) as (Hh & Hx);
    [ rewrite same; exact H | ]
  | destruct (handleRejection_run a i c res_ s_) as (Hh & Hr & He);
    [ rewrite same; exact H | ]
  | destruct (handleAccept_run a i c res_ s_) as (Hh & Hr & He);
    [ rewrite same; exact H | ] ].

Ltac give_prefix :=
  match goal with
  | |- context [(?p ++ [Called (goll_Submit _ _ _) _]) ++ _] => exists p
  end.

Ltac take_prefix :=
  match goal with
  | |- exists pre, _ /\ ?p ++ _ = _ => exists p
  end.

Ltac split_resolved R :=
  let Ef := fresh "Ef" in
  destruct R as [(Ef & -> & ->) | (? & Ef & ->)].

(** CLAIM C1: when [Submit] answers without an error, the handler
    dispatches on [Accepted].  If it is true the accept path runs: the
    custom accept handler is called with the context and the result and
    nothing follows, or, without one, [c.Next()] is called.  If it is
    false the reject path runs, and the accept path does not. *)
Theorem dispatch_on_Accepted (h : HandlerFunc) (i : loadLimiterMiddleware)
  (s1 s : State) (c : Context) (l : LoadLimiter) (key : string) (n : N)
  (res : SubmitResult) :
  installed h i s1 -> later s1 s ->
  In (Called (goll_Submit l key n) (res, None)) (events (h c s)) ->
  exists pre,
    resolved i c pre key /\
    result (h c s) = Returned tt /\
    if Accepted res
    then
      events (h c s)
      = pre ++ [Called (goll_Submit l key n) (res, None);
                Entered handleAccept_;
                match acceptHandler i with
                | Some f => Called (call_ResultFunc f c res) tt
                | None => Called (gin_Next c) tt
                end]
    else
      exists post,
        events (h c s)
        = pre ++ Called (goll_Submit l key n) (res, None)
                 :: Entered handleRejection_ :: post /\
        fires handleAccept_ post = 0 /\
        (forall o, In o post -> as_Next o = None).
Proof.
  intros I L S. destruct (installed_later h i s1 s I L) as (a & -> & H & V).
  destruct (N.eq_0_gt_0_cases (load i)) as [Z|P].
  { rewrite (request_zero a i c s H Z) in S. unfold call in S.
    find_call as_Submit S. }
  paths a i c s H V P; rewrite Ce in *; clear Ce.
  - destruct (errorHandler i); destruct Hx as [Hx _]; rewrite Hx in *;
      find_call as_Submit S.
  - destruct (errorHandler i); destruct Hx as [Hx _]; rewrite Hx in *;
      split_resolved R; find_call as_Submit S.
  - rewrite He in *. rewrite Cr, Hr.
    split_resolved R; destruct (abortHandler i);
      destruct (RetryInAvailable res_); find_call as_Submit S.
    all: give_prefix; (split; [first [left; solve [auto] | right; eauto]|]).
    all: split; [reflexivity|].
    all: rewrite EA; cbn; eexists; (split; [reflexivity|]).
    all: split; [reflexivity|]; cbn; intros o Ho.
    all: intuition (subst; reflexivity).
  - rewrite He in *. rewrite Cr, Hr.
    split_resolved R; destruct (acceptHandler i); find_call as_Submit S.
    all: give_prefix; (split; [first [left; solve [auto] | right; eauto]|]).
    all: split; [reflexivity|].
    all: rewrite EA; reflexivity.
Qed.

(** CLAIM C2: for a request to an installed handler with a positive
    load, the three handling methods are entered exactly once in
    total; and when it is the rejection or the error handling, the
    request ends with it: result and final state are those of the
    handling method. *)
Theorem exactly_one_outcome (h : HandlerFunc) (i : loadLimiterMiddleware)
  (s1 s : State) (c : Context) :
  installed h i s1 -> later s1 s -> (0 < load i)%N ->
  let t := events (h c s) in
  fires handleAccept_ t + fires handleRejection_ t + fires handleError_ t = 1 /\
  (fires handleRejection_ t = 1 ->
   exists pre p res s2,
     (forall m, fires m pre = 0) /\
     continues (h c s) pre (handleRejection p c res s2)) /\
  (fires handleError_ t = 1 ->
   exists pre p err s2,
     (forall m, fires m pre = 0) /\
     continues (h c s) pre (handleError p c err s2)).
Proof.
  intros I L P. destruct (installed_later h i s1 s I L) as (a & -> & H & V).
  cbn zeta.
  paths a i c s H V P.
  - assert (Hx' : events (handleError (Some a) c err_ s_)
                  = Entered handleError_ ::
                    match errorHandler i with
                    | Some f => [Called (call_ErrorFunc f c err_) tt]
                    | None => []
                    end)
      by (destruct (errorHandler i); apply Hx).
    split; [|split].
    + rewrite Ce, Hx'. destruct (errorHandler i); reflexivity.
    + rewrite Ce, Hx'. destruct (errorHandler i); discriminate.
    + intros _. eexists _, (Some a), err_, s_.
      split; [|repeat split; eauto]. intros []; reflexivity.
  - assert (Hx' : events (handleError (Some a) c err_ s_)
                  = Entered handleError_ ::
                    match errorHandler i with
                    | Some f => [Called (call_ErrorFunc f c err_) tt]
                    | None => []
                    end)
      by (destruct (errorHandler i); apply Hx).
    assert (Hp : forall m, fires m (pre_ ++ [Called (goll_Submit l_ key_ (load i)) (res_, Some err_)]) = 0)
      by (intros m; split_resolved R; destruct m; reflexivity).
    split; [|split].
    + rewrite Ce, Hx', !(fires_app _ (pre_ ++ [_])), !Hp. destruct (errorHandler i); reflexivity.
    + rewrite Ce, Hx', !(fires_app _ (pre_ ++ [_])), !Hp. destruct (errorHandler i); discriminate.
    + intros _. eexists _, (Some a), err_, s_.
      split; [exact Hp|repeat split; eauto].
  - assert (Hp : forall m, fires m (pre_ ++ [Called (goll_Submit l_ key_ (load i)) (res_, None)]) = 0)
      by (intros m; split_resolved R; destruct m; reflexivity).
    split; [|split].
    + rewrite Ce, He, !(fires_app _ (pre_ ++ [_])), !Hp.
      destruct (abortHandler i); destruct (RetryInAvailable res_); reflexivity.
    + intros _. eexists _, (Some a), res_, s_.
      split; [exact Hp|repeat split; eauto].
    + rewrite Ce, He, !(fires_app _ (pre_ ++ [_])), !Hp.
      destruct (abortHandler i); destruct (RetryInAvailable res_); discriminate.
  - assert (Hp : forall m, fires m (pre_ ++ [Called (goll_Submit l_ key_ (load i)) (res_, None)]) = 0)
      by (intros m; split_resolved R; destruct m; reflexivity).
    split; [|split].
    + rewrite Ce, He, !(fires_app _ (pre_ ++ [_])), !Hp. destruct (acceptHandler i); reflexivity.
    + rewrite Ce, He, !(fires_app _ (pre_ ++ [_])), !Hp. destruct (acceptHandler i); discriminate.
    + rewrite Ce, He, !(fires_app _ (pre_ ++ [_])), !Hp. destruct (acceptHandler i); discriminate.
Qed.

(** CLAIM C4: with a load of 0, whether it is the [DefaultRouteLoad] of
    the configuration or the argument of [WithLoad], a request only
    continues the chain: the one call is [c.Next()], so neither the
    limiter nor the key function is called. *)
Theorem zero_load_continues (h : HandlerFunc) (i : loadLimiterMiddleware)
  (s1 s : State) (c : Context) :
  installed h i s1 -> later s1 s -> load i = 0%N ->
  events (h c s) = [Called (gin_Next c) tt] /\
  result (h c s) = Returned tt /\
  (forall o, In o (events (h c s)) ->
             as_Submit o = None /\ as_KeyFunc o = None).
Proof.
  intros I L Z. destruct (installed_later h i s1 s I L) as (a & -> & H & V).
  rewrite (request_zero a i c s H Z). unfold call. cbn.
  destruct (respond _ _ _) as [[] w']. cbn.
  repeat split; intuition (subst; reflexivity).
Qed.

(** CLAIM C5: with a positive load, an error of the key function or of
    [Submit] leads to the error handling and never to the rejection
    handling, and after an error of the key function [Submit] is not
    called.  With a fixed key and no key function the resolution
    returns the fixed key without an error and without a call, so that
    an error handling is then always due to [Submit]. *)
Theorem errors_reach_error_path (h : HandlerFunc)
  (i : loadLimiterMiddleware) (s1 s : State) (c : Context) :
  installed h i s1 -> later s1 s -> (0 < load i)%N ->
  let t := events (h c s) in
  (forall f key err,
     In (Called (call_KeyFunc f c) (key, Some err)) t ->
     fires handleError_ t = 1 /\ fires handleRejection_ t = 0 /\
     (forall o, In o t -> as_Submit o = None)) /\
  (forall l key n res err,
     In (Called (goll_Submit l key n) (res, Some err)) t ->
     fires handleError_ t = 1 /\ fires handleRejection_ t = 0) /\
  (tenantKeyFunc i = None ->
   (forall a s', heap s' !! a = Some i ->
      effectiveTenantKey (Some a) c s' = ret (tenantKey i, None) s') /\
   (forall o, In o t -> as_KeyFunc o = None) /\
   (fires handleError_ t = 1 ->
    exists l res err,
      In (Called (goll_Submit l (tenantKey i) (load i)) (res, Some err)) t)).
Proof.
  intros I L P. destruct (installed_later h i s1 s I L) as (a & -> & H & V).
  cbn zeta. split; [|split].
  - intros f key err S.
    paths a i c s H V P; rewrite Ce in *; clear Ce.
    1,2: destruct (errorHandler i); destruct Hx as [Hx _]; rewrite Hx in *.
    1,2: find_call as_KeyFunc S;
      (split; [reflexivity|]); (split; [reflexivity|]);
      cbn; intros o Ho; intuition (subst; reflexivity).
    1,2: split_resolved R; find_call as_KeyFunc S.
    + rewrite He in *.
      split_resolved R; destruct (abortHandler i);
        destruct (RetryInAvailable res_); find_call as_KeyFunc S.
    + rewrite He in *.
      split_resolved R; destruct (acceptHandler i); find_call as_KeyFunc S.
  - intros l key n res err S.
    paths a i c s H V P; rewrite Ce in *; clear Ce.
    1,2: destruct (errorHandler i); destruct Hx as [Hx _]; rewrite Hx in *.
    1,2: find_call as_Submit S.
    1,2: split_resolved R; find_call as_Submit S; split; reflexivity.
    + rewrite He in *.
      split_resolved R; destruct (abortHandler i);
        destruct (RetryInAvailable res_); find_call as_Submit S.
    + rewrite He in *.
      split_resolved R; destruct (acceptHandler i); find_call as_Submit S.
  - intros Ek. split; [|split].
    + intros a' s' H'. unfold effectiveTenantKey.
      rewrite (bind_deref a' i _ s' H'). rewrite Ek. reflexivity.
    + intros o Ho.
      paths a i c s H V P; rewrite Ce in *; clear Ce.
      1: congruence.
      1: destruct (errorHandler i); destruct Hx as [Hx _]; rewrite Hx in *.
      3,4: rewrite He in *.
      3: destruct (abortHandler i); destruct (RetryInAvailable res_).
      7: destruct (acceptHandler i).
      all: split_resolved R; try congruence.
      all: cbn in Ho; intuition (subst; reflexivity).
    + paths a i c s H V P; rewrite Ce in *; clear Ce.
      1: congruence.
      1: destruct (errorHandler i); destruct Hx as [Hx _]; rewrite Hx in *.
      3,4: rewrite He in *.
      3: destruct (abortHandler i); destruct (RetryInAvailable res_).
      7: destruct (acceptHandler i).
      all: split_resolved R; try congruence.
      all: cbn; try discriminate.
      all: intros _; exists l_, res_, err_; auto.
Qed.

(** CLAIM C6: a rejected request, on an instance without an abort
    handler, ends with [c.AbortWithStatus(429)]; just before, the
    header [X-Retry-In] is set to [RetryIn] in milliseconds when
    [RetryInAvailable] is true, and no header is set at all when it is
    false. *)
Theorem default_rejection (h : HandlerFunc) (i : loadLimiterMiddleware)
  (s1 s : State) (c : Context) (l : LoadLimiter) (key : string) (n : N)
  (res : SubmitResult) :
  installed h i s1 -> later s1 s -> abortHandler i = None ->
  In (Called (goll_Submit l key n) (res, None)) (events (h c s)) ->
  Accepted res = false ->
  let t := events (h c s) in
  let retry :=
    Called (gin_Header c "X-Retry-In"
              (Sprintf_v (Milliseconds (RetryIn res)))) tt in
  result (h c s) = Returned tt /\
  (exists pre,
     resolved i c pre key /\
     t = pre ++ [Called (goll_Submit l key n) (res, None);
                 Entered handleRejection_]
             ++ (if RetryInAvailable res then [retry] else [])
             ++ [Called (gin_AbortWithStatus c 429) tt]) /\
  (In retry t <-> RetryInAvailable res = true) /\
  (forall o, In o t -> as_Header o <> None -> o = retry) /\
  (forall o, In o t -> as_Next o = None).
Proof.
  intros I L A S R0. destruct (installed_later h i s1 s I L) as (a & -> & H & V).
  cbn zeta.
  destruct (N.eq_0_gt_0_cases (load i)) as [Z|P].
  { rewrite (request_zero a i c s H Z) in S. unfold call in S.
    find_call as_Submit S. }
  paths a i c s H V P; rewrite Ce in *; clear Ce.
  - destruct (errorHandler i); destruct Hx as [Hx _]; rewrite Hx in *;
      find_call as_Submit S.
  - destruct (errorHandler i); destruct Hx as [Hx _]; rewrite Hx in *;
      split_resolved R; find_call as_Submit S.
  - rewrite He in *. rewrite Cr, Hr. rewrite A in *.
    split_resolved R; destruct (RetryInAvailable res_) eqn:ER;
      find_call as_Submit S; rewrite ?ER.
    all: split; [reflexivity|].
    all: split; [give_prefix;
                 (split; [first [left; solve [auto] | right; eauto]|]);
                 reflexivity|].
    all: split; [split; [intros Hin; try reflexivity;
                         find_call as_Header Hin
                        |intros ?; try discriminate; cbn; auto]|].
    all: split; cbn; intros o Ho; intuition (subst; cbn in *; congruence).
  - rewrite He in *.
    split_resolved R; destruct (acceptHandler i); find_call as_Submit S;
      congruence.
Qed.

(** CLAIM C7: when the key function or [Submit] has answered with the
    error [err], an error handler, if there is one, is called with the
    context and [err] and the request returns without a panic; without
    one the request panics with an error that wraps [err]. *)
Theorem error_handling (h : HandlerFunc) (i : loadLimiterMiddleware)
  (s1 s : State) (c : Context) (err : error) :
  installed h i s1 -> later s1 s ->
  let t := events (h c s) in
  (exists f key, In (Called (call_KeyFunc f c) (key, Some err)) t) \/
  (exists l key n res, In (Called (goll_Submit l key n) (res, Some err)) t) ->
  match errorHandler i with
  | Some f =>
      result (h c s) = Returned tt /\
      exists pre,
        (forall m, fires m pre = 0) /\
        t = pre ++ [Entered handleError_; Called (call_ErrorFunc f c err) tt]
  | None =>
      result (h c s)
      = Panicked (fmt_Errorf_w "error submitting load request: " err) /\
      Unwrap (fmt_Errorf_w "error submitting load request: " err)
      = Some err /\
      exists pre,
        (forall m, fires m pre = 0) /\ t = pre ++ [Entered handleError_]
  end.
Proof.
  intros I L. destruct (installed_later h i s1 s I L) as (a & -> & H & V).
  cbn zeta. intros S.
  destruct (N.eq_0_gt_0_cases (load i)) as [Z|P].
  { rewrite (request_zero a i c s H Z) in S. unfold call in S.
    destruct S as [(f & key & S)|(l & key & n & res & S)];
      [find_call as_KeyFunc S | find_call as_Submit S]. }
  paths a i c s H V P; rewrite Ce in *; clear Ce.
  - rewrite Cr.
    destruct (errorHandler i); destruct Hx as [Hx Hr]; rewrite Hx in *;
      rewrite Hr.
    all: destruct S as [(f & key & S)|(l & key & n & res & S)];
      [find_call as_KeyFunc S | find_call as_Submit S].
    all: repeat (split; [reflexivity|]).
    all: take_prefix; split; [intros []; reflexivity|reflexivity].
  - rewrite Cr.
    destruct (errorHandler i); destruct Hx as [Hx Hr]; rewrite Hx in *;
      rewrite Hr.
    all: split_resolved R;
      (destruct S as [(f & key & S)|(l & key & n & res & S)];
       [find_call as_KeyFunc S | find_call as_Submit S]).
    all: repeat (split; [reflexivity|]).
    all: take_prefix; split; [intros []; reflexivity|reflexivity].
  - rewrite He in *.
    split_resolved R; destruct (abortHandler i);
      destruct (RetryInAvailable res_);
      (destruct S as [(f & key & S)|(l & key & n & res & S)];
       [find_call as_KeyFunc S | find_call as_Submit S]).
  - rewrite He in *.
    split_resolved R; destruct (acceptHandler i);
      (destruct S as [(f & key & S)|(l & key & n & res & S)];
       [find_call as_KeyFunc S | find_call as_Submit S]).
Qed.

(** A key that the key function returns without an error is submitted
    right after, with the load of the instance. *)
Lemma resolved_key_submitted (h : HandlerFunc) (i : loadLimiterMiddleware)
  (s1 s : State) (c : Context) (f : KeyFunc) (key : string) :
  installed h i s1 -> later s1 s ->
  In (Called (call_KeyFunc f c) (key, None)) (events (h c s)) ->
  exists l r post,
    limiter i = Some l /\
    events (h c s)
    = Called (call_KeyFunc f c) (key, None)
      :: Called (goll_Submit l key (load i)) r :: post.
Proof.
  intros I L S. destruct (installed_later h i s1 s I L) as (a & -> & H & V).
  destruct (N.eq_0_gt_0_cases (load i)) as [Z|P].
  { rewrite (request_zero a i c s H Z) in S. unfold call in S.
    find_call as_KeyFunc S. }
  paths a i c s H V P; rewrite Ce in *; clear Ce.
  - destruct (errorHandler i); destruct Hx as [Hx _]; rewrite Hx in *;
      find_call as_KeyFunc S.
  - destruct (errorHandler i); destruct Hx as [Hx _]; rewrite Hx in *;
      split_resolved R; find_call as_KeyFunc S;
      eexists _, _, _; (split; [eassumption|reflexivity]).
  - rewrite He in *.
    split_resolved R; destruct (abortHandler i);
      destruct (RetryInAvailable res_); find_call as_KeyFunc S;
      eexists _, _, _; (split; [eassumption|reflexivity]).
  - rewrite He in *.
    split_resolved R; destruct (acceptHandler i); find_call as_KeyFunc S;
      eexists _, _, _; (split; [eassumption|reflexivity]).
Qed.

(** CLAIM C9: when the key function returns the empty string without
    an error, the empty string is the key submitted to the limiter,
    with the load of the instance, right after: as for any other key
    that the key function returns, and as for a fixed key. *)
Theorem empty_tenant_key_is_submitted (h : HandlerFunc)
  (i : loadLimiterMiddleware) (s1 s : State) (c : Context) :
  installed h i s1 -> later s1 s ->
  let t := events (h c s) in
  (forall f,
     In (Called (call_KeyFunc f c) ("", None)) t ->
     exists l r post,
       limiter i = Some l /\
       t = Called (call_KeyFunc f c) ("", None)
           :: Called (goll_Submit l "" (load i)) r :: post) /\
  (forall f key,
     In (Called (call_KeyFunc f c) (key, None)) t ->
     exists l r post,
       limiter i = Some l /\
       t = Called (call_KeyFunc f c) (key, None)
           :: Called (goll_Submit l key (load i)) r :: post) /\
  (tenantKeyFunc i = None -> (0 < load i)%N ->
   exists l r post,
     limiter i = Some l /\
     t = Called (goll_Submit l (tenantKey i) (load i)) r :: post).
Proof.
  intros I L. cbn zeta. split; [|split].
  - intros f. apply (resolved_key_submitted h i s1 s c f "" I L).
  - intros f key. apply (resolved_key_submitted h i s1 s c f key I L).
  - destruct (installed_later h i s1 s I L) as (a & -> & H & V).
    intros Ek P.
    paths a i c s H V P; rewrite Ce in *; clear Ce.
    1: congruence.
    all: split_resolved R; try congruence.
    all: eexists _, _, _; (split; [eassumption|reflexivity]).
Qed.

(** *** Installation *)

Lemma NewLimiterMiddleware_run (config : Config) (s0 s : State) (p : pointer) :
  result (NewLimiterMiddleware config s0) = Returned p ->
  later (final (NewLimiterMiddleware config s0)) s ->
  exists a i,
    p = Some a /\ heap s !! a = Some i /\
    load i = DefaultRouteLoad config /\
    limiter i = Limiter config /\
    tenantKey i = TenantKey config /\
    tenantKeyFunc i = TenantKeyFunc config /\
    (valid i <-> ~ misconfigured config) /\
    (misconfigured config <-> ~ valid i).
Proof.
  unfold NewLimiterMiddleware, new. cbn. intros [= <-] L.
  eexists _, _. split; [reflexivity|].
  split; [eapply later_lookup; [exact L|apply lookup_snoc]|].
  cbn. repeat (split; [reflexivity|]).
  unfold valid, misconfigured. cbn.
  destruct (Limiter config); destruct (TenantKeyFunc config);
    destruct (String.eqb_spec (TenantKey config) "");
    split; split; intros; intuition congruence.
Qed.

Lemma valid_set_load (n : N) (i : loadLimiterMiddleware) :
  valid (set_load n i) <-> valid i.
Proof. unfold valid. cbn. tauto. Qed.

Lemma Default_run (a : nat) (i : loadLimiterMiddleware) (s : State) :
  heap s !! a = Some i ->
  events (Default (Some a) s) = [] /\
  final (Default (Some a) s) = s /\
  (valid i ->
   result (Default (Some a) s) = Returned (routeLoadLimiter_func1 (Some a))) /\
  (~ valid i -> panics (Default (Some a) s)).
Proof.
  intros H. destruct (routeLoadLimiter_run a i s H) as (E & F & V & NV).
  unfold Default, panics.
  split; [exact E|]. split; [exact F|]. split; [exact V|].
  intros N. destruct (NV N) as [err R]. eauto.
Qed.

Lemma WithLoad_Default (a : nat) (i : loadLimiterMiddleware) (n : N)
  (s : State) :
  heap s !! a = Some i ->
  events (WithLoad (Some a) n s) = [] /\
  final (WithLoad (Some a) n s)
  = {| heap := heap s ++ [set_load n i]; world := world s |} /\
  (valid i ->
   result (WithLoad (Some a) n s)
   = Returned (routeLoadLimiter_func1 (Some (length (heap s))))) /\
  (~ valid i -> panics (WithLoad (Some a) n s)).
Proof.
  intros H. destruct (WithLoad_run a i n s H) as (R & E & F).
  rewrite R, E, F.
  destruct (routeLoadLimiter_run (length (heap s)) (set_load n i)
              {| heap := heap s ++ [set_load n i]; world := world s |})
    as (E' & F' & V & NV); [apply lookup_snoc|].
  rewrite valid_set_load in V, NV. unfold panics.
  split; [exact E'|]. split; [exact F'|]. split; [exact V|].
  intros N. destruct (NV N) as [err X].
  exists (errors_New err). rewrite R. exact X.
Qed.

Lemma panics_not_Returned {A : Type} (o : Outcome A) (a : A) :
  panics o -> result o = Returned a -> False.
Proof. intros [v E] R. congruence. Qed.

(** *** The heap only grows *)

Lemma Default_later (p : pointer) (s : State) : later s (final (Default p s)).
Proof.
  unfold later. destruct p as [a|].
  - destruct (heap s !! a) as [i|] eqn:H.
    + destruct (Default_run a i s H) as (_ & -> & _). reflexivity.
    + unfold Default, routeLoadLimiter, validateConfig, bind, deref.
      rewrite H. reflexivity.
  - reflexivity.
Qed.

Lemma WithLoad_later (p : pointer) (n : N) (s : State) :
  later s (final (WithLoad p n s)).
Proof.
  unfold later. destruct p as [a|].
  - destruct (heap s !! a) as [i|] eqn:H.
    + destruct (WithLoad_Default a i n s H) as (_ & -> & _). cbn.
      apply prefix_app_r. reflexivity.
    + unfold WithLoad, clone, bind, deref. rewrite H. reflexivity.
  - reflexivity.
Qed.

Lemma NewLimiterMiddleware_later (config : Config) (s : State) :
  later s (final (NewLimiterMiddleware config s)).
Proof. unfold later. cbn. apply prefix_app_r. reflexivity. Qed.

Lemma request_keeps_heap (h : HandlerFunc) (i : loadLimiterMiddleware)
  (s1 s : State) (c : Context) :
  installed h i s1 -> later s1 s -> heap (final (h c s)) = heap s.
Proof.
  intros I L. destruct (installed_later h i s1 s I L) as (a & -> & H & V).
  destruct (N.eq_0_gt_0_cases (load i)) as [Z|P].
  { rewrite (request_zero a i c s H Z). reflexivity. }
  paths a i c s H V P; rewrite Cf; congruence.
Qed.

(** CLAIM C3: for an instance made from a configuration, [Default] and
    [WithLoad] panic, with nothing done for any request, exactly when
    the configuration has no limiter, or neither a tenant key nor a key
    function, or both; otherwise both return a handler.  And a request
    to an installed handler panics only with the wrapped error of the
    key function or of [Submit] of that very request: never with an
    error of the validation, never on a nil limiter. *)
Theorem installation_validates (config : Config) (s0 s : State) (p : pointer)
  (n : N) :
  result (NewLimiterMiddleware config s0) = Returned p ->
  later (final (NewLimiterMiddleware config s0)) s ->
  (panics (Default p s) <-> misconfigured config) /\
  (panics (WithLoad p n s) <-> misconfigured config) /\
  events (Default p s) = [] /\
  events (WithLoad p n s) = [] /\
  (~ misconfigured config ->
   exists h h',
     result (Default p s) = Returned h /\
     result (WithLoad p n s) = Returned h') /\
  (forall h i s1 s' c v,
     installed h i s1 -> later s1 s' ->
     result (h c s') = Panicked v ->
     exists err,
       v = fmt_Errorf_w "error submitting load request: " err /\
       ((exists f key,
           In (Called (call_KeyFunc f c) (key, Some err)) (events (h c s'))) \/
        (exists l key m res,
           In (Called (goll_Submit l key m) (res, Some err))
              (events (h c s'))))).
Proof.
  intros N L.
  destruct (NewLimiterMiddleware_run config s0 s p N L)
    as (a & i & -> & H & _ & _ & _ & _ & V & M).
  destruct (Default_run a i s H) as (DE & _ & DV & DN).
  destruct (WithLoad_Default a i n s H) as (WE & _ & WV & WN).
  split; [|split; [|split; [|split; [|split]]]]; auto.
  - rewrite M. split; [|exact DN].
    intros Q Y. exact (panics_not_Returned _ _ Q (DV Y)).
  - rewrite M. split; [|exact WN].
    intros Q Y. exact (panics_not_Returned _ _ Q (WV Y)).
  - intros Y. apply V in Y. eexists _, _. split; [apply DV|apply WV]; exact Y.
  - clear. intros h i s1 s c v I L.
    destruct (installed_later h i s1 s I L) as (a & -> & H & V).
    destruct (N.eq_0_gt_0_cases (load i)) as [Z|P].
    { rewrite (request_zero a i c s H Z). discriminate. }
    paths a i c s H V P; rewrite Ce, Cr; clear Ce Cr.
    + destruct (errorHandler i); destruct Hx as [-> ->]; intros [= <-].
      eexists. split; [reflexivity|]. left. eexists _, _. cbn. eauto.
    + destruct (errorHandler i); destruct Hx as [-> ->]; intros [= <-].
      eexists. split; [reflexivity|]. right. eexists _, _, _, _.
      apply in_or_app. left. apply in_or_app. right. cbn. eauto.
    + rewrite Hr. discriminate.
    + rewrite Hr. discriminate.
Qed.

(** The limiter and the load that a request submits are those of the
    instance. *)
Lemma submitted_load (h : HandlerFunc) (i : loadLimiterMiddleware)
  (s1 s : State) (c : Context) (l : LoadLimiter) (key : string) (m : N)
  (r : SubmitResult * option error) :
  installed h i s1 -> later s1 s ->
  In (Called (goll_Submit l key m) r) (events (h c s)) ->
  limiter i = Some l /\ m = load i.
Proof.
  intros I L S. destruct (installed_later h i s1 s I L) as (a & -> & H & V).
  destruct (N.eq_0_gt_0_cases (load i)) as [Z|P].
  { rewrite (request_zero a i c s H Z) in S. unfold call in S.
    find_call as_Submit S. }
  paths a i c s H V P; rewrite Ce in *; clear Ce.
  - destruct (errorHandler i); destruct Hx as [Hx _]; rewrite Hx in *;
      find_call as_Submit S.
  - destruct (errorHandler i); destruct Hx as [Hx _]; rewrite Hx in *;
      split_resolved R; find_call as_Submit S; auto.
  - rewrite He in *.
    split_resolved R; destruct (abortHandler i);
      destruct (RetryInAvailable res_); find_call as_Submit S; auto.
  - rewrite He in *.
    split_resolved R; destruct (acceptHandler i); find_call as_Submit S; auto.
Qed.

Lemma later_trans (s1 s2 s3 : State) : later s1 s2 -> later s2 s3 -> later s1 s3.
Proof. unfold later. intros A B. etransitivity; eassumption. Qed.

(** CLAIM C8: [WithLoad n] allocates one new struct, which has the
    fields of the receiver except for the load, which is [n], and
    returns the handler of that struct; no struct that existed before,
    the receiver among them, is changed.  So the handlers of two
    specializations of one parent submit each its own load, whatever
    is specialized afterwards. *)
Theorem WithLoad_copies (a : nat) (i : loadLimiterMiddleware) (n n2 : N)
  (s : State) :
  heap s !! a = Some i ->
  let o := WithLoad (Some a) n s in
  let o2 := WithLoad (Some a) n2 (final o) in
  heap (final o)
  = heap s ++ [{| limiter := limiter i;
                  load := n;
                  tenantKey := tenantKey i;
                  tenantKeyFunc := tenantKeyFunc i;
                  acceptHandler := acceptHandler i;
                  abortHandler := abortHandler i;
                  errorHandler := errorHandler i |}] /\
  world (final o) = world s /\
  events o = [] /\
  heap (final o) !! a = Some i /\
  (forall b v, heap s !! b = Some v -> heap (final o) !! b = Some v) /\
  (forall h, result o = Returned h ->
             h = routeLoadLimiter_func1 (Some (length (heap s)))) /\
  (valid i -> exists h, result o = Returned h) /\
  (forall h1 h2 s' c l key m r,
     result o = Returned h1 -> result o2 = Returned h2 ->
     later (final o2) s' ->
     heap s' !! a = Some i /\
     (In (Called (goll_Submit l key m) r) (events (h1 c s')) -> m = n) /\
     (In (Called (goll_Submit l key m) r) (events (h2 c s')) -> m = n2)).
Proof.
  intros H. cbn zeta.
  destruct (WithLoad_Default a i n s H) as (E & F & V & NV).
  assert (H1 : heap (final (WithLoad (Some a) n s)) !! a = Some i).
  { rewrite F. cbn. apply lookup_app_l_Some. exact H. }
  destruct (WithLoad_Default a i n2 _ H1) as (E2 & F2 & V2 & NV2).
  split; [rewrite F; reflexivity|].
  split; [rewrite F; reflexivity|].
  split; [exact E|].
  split; [exact H1|].
  split; [intros b v Hb; rewrite F; cbn; apply lookup_app_l_Some; exact Hb|].
  split; [|split].
  - intros h R. destruct (valid_dec i) as [Y|Y].
    + rewrite (V Y) in R. congruence.
    + destruct (panics_not_Returned _ _ (NV Y) R).
  - intros Y. eauto.
  - intros h1 h2 s' c l key m r R1 R2 L.
    assert (I1 : installed h1 (set_load n i) (final (WithLoad (Some a) n s))).
    { apply (installed_WithLoad h1 (Some a) n s i); [|exact R1].
      rewrite (deref_Some a i s H). reflexivity. }
    assert (I2 : installed h2 (set_load n2 i)
                   (final (WithLoad (Some a) n2 (final (WithLoad (Some a) n s))))).
    { apply (installed_WithLoad h2 (Some a) n2 _ i); [|exact R2].
      rewrite (deref_Some a i _ H1). reflexivity. }
    assert (L12 : later (final (WithLoad (Some a) n s))
                    (final (WithLoad (Some a) n2 (final (WithLoad (Some a) n s))))).
    { unfold later. rewrite F2. cbn. apply prefix_app_r. reflexivity. }
    split; [|split].
    + apply (later_lookup _ _ _ _ (later_trans _ _ _ L12 L)). exact H1.
    + intros S.
      apply (submitted_load h1 _ _ s' c l key m r I1
               (later_trans _ _ _ L12 L)) in S.
      apply S.
    + intros S. apply (submitted_load h2 _ _ s' c l key m r I2 L) in S.
      apply S.
Qed.

(** CLAIM C10: the validation takes an empty [TenantKey] as not
    specified.  With an empty [TenantKey] and no key function the
    installation panics, with a limiter for want of a tenant key; with
    an empty [TenantKey], a key function and a limiter it succeeds,
    instead of refusing two sources.  So no installed handler has a
    fixed key that is empty; yet a key function that returns the empty
    string gets it submitted. *)
Theorem empty_TenantKey_is_unspecified (config : Config) (s0 s : State)
  (p : pointer) :
  result (NewLimiterMiddleware config s0) = Returned p ->
  later (final (NewLimiterMiddleware config s0)) s ->
  TenantKey config = "" ->
  (TenantKeyFunc config = None ->
   panics (Default p s) /\
   (Limiter config <> None ->
    result (validateConfig p s)
    = Returned (Some (errors_New
                        "one of TenantKey or TenantKeyFunc is required")) /\
    result (Default p s)
    = Panicked (errors_New
                  "one of TenantKey or TenantKeyFunc is required"))) /\
  (TenantKeyFunc config <> None -> Limiter config <> None ->
   result (validateConfig p s) = Returned None /\
   result (Default p s) = Returned (routeLoadLimiter_func1 p)) /\
  (forall h i s1,
     installed h i s1 -> tenantKeyFunc i = None -> tenantKey i <> "") /\
  (forall h i s1 s' c f,
     installed h i s1 -> later s1 s' ->
     In (Called (call_KeyFunc f c) ("", None)) (events (h c s')) ->
     exists l r,
       In (Called (goll_Submit l "" (load i)) r) (events (h c s'))).
Proof.
  intros N L HK.
  destruct (NewLimiterMiddleware_run config s0 s p N L)
    as (a & i & -> & H & _ & El & Ek & Ef & _ & M).
  assert (Q : Limiter config <> None ->
              validateConfig (Some a) s
              = (if bool_decide (tenantKeyFunc i = None)
                 then ret (Some (errors_New
                        "one of TenantKey or TenantKeyFunc is required"))
                 else ret None) s).
  { intros HL. unfold validateConfig. rewrite (bind_deref a i _ s H).
    rewrite El, Ek, HK. destruct (Limiter config); [|congruence]. cbn.
    destruct (tenantKeyFunc i); reflexivity. }
  split; [|split; [|split]].
  - intros E. split.
    + destruct (Default_run a i s H) as (_ & _ & _ & DN). apply DN, M.
      right. left. auto.
    + intros HL. unfold Default, routeLoadLimiter, bind. rewrite (Q HL).
      rewrite Ef, E. cbn. auto.
  - intros E HL. unfold Default, routeLoadLimiter, bind. rewrite (Q HL).
    rewrite Ef. destruct (TenantKeyFunc config); [|congruence]. cbn. auto.
  - intros h i' s1 I E K.
    destruct (installed_bound h i' s1 I) as (_ & _ & _ & _ & [[_ F]|[F _]]);
      congruence.
  - intros h i' s1 s' c f I L' S.
    destruct (resolved_key_submitted h i' s1 s' c f "" I L' S)
      as (l & r & post & _ & E).
    exists l, r. rewrite E. cbn. auto.
Qed.

(** ** Further properties of the code *)

(** The handling methods, and with them a request, only look at the
    fields of the struct they are given, not at its address. *)
Lemma handleError_by_value (a b : nat) (i : loadLimiterMiddleware)
  (c : Context) (err : error) (s : State) :
  heap s !! a = Some i -> heap s !! b = Some i ->
  handleError (Some a) c err s = handleError (Some b) c err s.
Proof.
  intros Ha Hb. unfold handleError. rewrite !bind_enter.
  rewrite (bind_deref a i _ s Ha), (bind_deref b i _ s Hb). reflexivity.
Qed.

Lemma handleRejection_by_value (a b : nat) (i : loadLimiterMiddleware)
  (c : Context) (res : SubmitResult) (s : State) :
  heap s !! a = Some i -> heap s !! b = Some i ->
  handleRejection (Some a) c res s = handleRejection (Some b) c res s.
Proof.
  intros Ha Hb. unfold handleRejection. rewrite !bind_enter.
  rewrite (bind_deref a i _ s Ha), (bind_deref b i _ s Hb). reflexivity.
Qed.

Lemma handleAccept_by_value (a b : nat) (i : loadLimiterMiddleware)
  (c : Context) (res : SubmitResult) (s : State) :
  heap s !! a = Some i -> heap s !! b = Some i ->
  handleAccept (Some a) c res s = handleAccept (Some b) c res s.
Proof.
  intros Ha Hb. unfold handleAccept. rewrite !bind_enter.
  rewrite (bind_deref a i _ s Ha), (bind_deref b i _ s Hb). reflexivity.
Qed.

Lemma request_by_value (a b : nat) (i : loadLimiterMiddleware) (c : Context)
  (s : State) :
  heap s !! a = Some i -> heap s !! b = Some i ->
  routeLoadLimiter_func1 (Some a) c s = routeLoadLimiter_func1 (Some b) c s.
Proof.
  intros Ha Hb.
  assert (submit : forall key s2, heap s2 = heap s ->
    (i0 <- deref (Some a) ;;
     match limiter i0 with
     | Some l0 =>
         r <- call (goll_Submit l0 key (load i0)) ;;
         (let (res0, err0) := r in
          match err0 with
          | Some err1 => handleError (Some a) c err1
          | None =>
              if negb (Accepted res0)
              then handleRejection (Some a) c res0
              else handleAccept (Some a) c res0
          end)
     | None => panic runtime_nil_dereference
     end) s2
    = (i0 <- deref (Some b) ;;
       match limiter i0 with
       | Some l0 =>
           r <- call (goll_Submit l0 key (load i0)) ;;
           (let (res0, err0) := r in
            match err0 with
            | Some err1 => handleError (Some b) c err1
            | None =>
                if negb (Accepted res0)
                then handleRejection (Some b) c res0
                else handleAccept (Some b) c res0
            end)
       | None => panic runtime_nil_dereference
       end) s2).
  { intros key s2 E.
    assert (Ha2 : heap s2 !! a = Some i) by (rewrite E; exact Ha).
    assert (Hb2 : heap s2 !! b = Some i) by (rewrite E; exact Hb).
    rewrite (bind_deref a i _ s2 Ha2), (bind_deref b i _ s2 Hb2).
    destruct (limiter i) as [l|]; [|reflexivity].
    rewrite !bind_call.
    destruct (respond _ (goll_Submit l key (load i)) (world s2))
      as [[res [err|]] w3]; cbn [fst snd]; f_equal.
    - apply (handleError_by_value a b i); assumption.
    - destruct (Accepted res); cbn [negb].
      + apply (handleAccept_by_value a b i); assumption.
      + apply (handleRejection_by_value a b i); assumption. }
  unfold routeLoadLimiter_func1.
  rewrite (bind_deref a i _ s Ha), (bind_deref b i _ s Hb).
  destruct (load i <=? 0)%N; [reflexivity|].
  unfold effectiveTenantKey. rewrite !bind_assoc.
  rewrite (bind_deref a i _ s Ha), (bind_deref b i _ s Hb).
  destruct (tenantKeyFunc i) as [f|].
  - rewrite !bind_call.
    destruct (respond _ (call_KeyFunc f c) (world s)) as [[key [err|]] w2];
      cbn [fst snd]; f_equal.
    + apply (handleError_by_value a b i); assumption.
    + apply submit. reflexivity.
  - rewrite !bind_ret_l. apply submit. reflexivity.
Qed.

(** What [routeLoadLimiter] does on a struct, check by check. *)
Lemma routeLoadLimiter_verdict (a : nat) (i : loadLimiterMiddleware)
  (s : State) :
  heap s !! a = Some i ->
  result (routeLoadLimiter (Some a) s)
  = match limiter i with
    | None => Panicked (errors_New "limiter is required")
    | Some _ =>
        if (tenantKey i =? "") && bool_decide (tenantKeyFunc i = None)
        then Panicked (errors_New
                         "one of TenantKey or TenantKeyFunc is required")
        else if negb (tenantKey i =? "")
                && negb (bool_decide (tenantKeyFunc i = None))
        then Panicked (errors_New
                         "only one of TenantKey or TenantKeyFunc is required")
        else Returned (routeLoadLimiter_func1 (Some a))
    end.
Proof.
  intros H. unfold routeLoadLimiter, validateConfig.
  rewrite bind_assoc. rewrite (bind_deref a i _ s H).
  destruct (limiter i); cbn; [|reflexivity].
  destruct (tenantKey i =? ""); destruct (tenantKeyFunc i); reflexivity.
Qed.

(** EXTRA X1: [NewLimiterMiddleware] checks nothing: for every
    configuration, the zero value included, it returns a pointer that is
    not nil, to a struct that did not exist before and that holds the
    seven fields of the configuration; the structs that existed are
    left as they were and no collaborator is called. *)
Theorem NewLimiterMiddleware_defers_validation (config : Config) (s : State) :
  let o := NewLimiterMiddleware config s in
  exists a,
    result o = Returned (Some a) /\
    heap s !! a = None /\
    heap (final o) !! a
    = Some {| limiter := Limiter config;
              load := DefaultRouteLoad config;
              tenantKey := TenantKey config;
              tenantKeyFunc := TenantKeyFunc config;
              acceptHandler := AcceptHandler config;
              abortHandler := AbortHandler config;
              errorHandler := ErrorHandler config |} /\
    (forall b v, heap s !! b = Some v -> heap (final o) !! b = Some v) /\
    length (heap (final o)) = S (length (heap s)) /\
    world (final o) = world s /\
    events o = [].
Proof.
  cbn zeta. exists (length (heap s)). cbn.
  split; [reflexivity|].
  split; [apply lookup_ge_None_2; lia|].
  split; [apply lookup_snoc|].
  split; [intros b v Hb; apply lookup_app_l_Some; exact Hb|].
  split; [rewrite length_app; cbn; lia|].
  split; reflexivity.
Qed.

(** EXTRA X2: the checks of the validation come in a fixed order, and
    [Default] panics with the error of the first one that fails: a
    missing limiter is reported whatever the tenant-key fields are, then
    an empty key without a key function, then a key together with a key
    function.  [Default] allocates nothing and calls no collaborator,
    whether it panics or returns. *)
Theorem Default_error_precedence (a : nat) (i : loadLimiterMiddleware)
  (s : State) :
  heap s !! a = Some i ->
  final (Default (Some a) s) = s /\
  events (Default (Some a) s) = [] /\
  (limiter i = None ->
   result (Default (Some a) s) = Panicked (errors_New "limiter is required")) /\
  (limiter i <> None -> tenantKey i = "" -> tenantKeyFunc i = None ->
   result (Default (Some a) s)
   = Panicked (errors_New "one of TenantKey or TenantKeyFunc is required")) /\
  (limiter i <> None -> tenantKey i <> "" -> tenantKeyFunc i <> None ->
   result (Default (Some a) s)
   = Panicked (errors_New
                 "only one of TenantKey or TenantKeyFunc is required")) /\
  (valid i ->
   result (Default (Some a) s) = Returned (routeLoadLimiter_func1 (Some a))).
Proof.
  intros H. destruct (Default_run a i s H) as (E & F & V & _).
  pose proof (routeLoadLimiter_verdict a i s H) as R.
  unfold Default in *.
  split; [exact F|]. split; [exact E|].
  split; [|split; [|split]]; [| | |exact V].
  - intros L. rewrite R, L. reflexivity.
  - intros L K N. rewrite R, K, N. destruct (limiter i); [|congruence].
    reflexivity.
  - intros L K N. rewrite R.
    destruct (limiter i); [|congruence].
    destruct (String.eqb_spec (tenantKey i) ""); [congruence|].
    destruct (tenantKeyFunc i); [|congruence]. reflexivity.
Qed.

(** EXTRA X3: on a nil receiver [Default] panics with the error
    "nil config" of the validation, while [WithLoad] panics earlier, in
    [clone], with the run-time error of a nil dereference; neither
    changes the state. *)
Theorem nil_receiver (n : N) (s : State) :
  result (Default None s) = Panicked (errors_New "nil config") /\
  result (WithLoad None n s) = Panicked runtime_nil_dereference /\
  result (clone None s) = Panicked runtime_nil_dereference /\
  final (Default None s) = s /\
  final (WithLoad None n s) = s.
Proof. repeat split. Qed.


(** EXTRA X5: with an abort handler, a rejected request ends with the
    call of that handler on the context and the result of [Submit]; the
    middleware itself then sets no header, sends no status and does not
    continue the chain. *)
Theorem custom_abort_handler (h : HandlerFunc) (i : loadLimiterMiddleware)
  (s1 s : State) (c : Context) (l : LoadLimiter) (key : string) (n : N)
  (res : SubmitResult) (f : ResultFunc) :
  installed h i s1 -> later s1 s -> abortHandler i = Some f ->
  In (Called (goll_Submit l key n) (res, None)) (events (h c s)) ->
  Accepted res = false ->
  result (h c s) = Returned tt /\
  (exists pre,
     resolved i c pre key /\
     events (h c s)
     = pre ++ [Called (goll_Submit l key n) (res, None);
               Entered handleRejection_;
               Called (call_ResultFunc f c res) tt]) /\
  (forall o, In o (events (h c s)) -> on_context o = false).
Proof.
  intros I L A S R0. destruct (installed_later h i s1 s I L) as (a & -> & H & V).
  destruct (N.eq_0_gt_0_cases (load i)) as [Z|P].
  { rewrite (request_zero a i c s H Z) in S. unfold call in S.
    find_call as_Submit S. }
  paths a i c s H V P; rewrite Ce in *; clear Ce.
  - destruct (errorHandler i); destruct Hx as [Hx _]; rewrite Hx in *;
      find_call as_Submit S.
  - destruct (errorHandler i); destruct Hx as [Hx _]; rewrite Hx in *;
      split_resolved R; find_call as_Submit S.
  - rewrite He in *. rewrite Cr, Hr. rewrite A in *.
    split_resolved R; find_call as_Submit S.
    all: split; [reflexivity|].
    all: split; [give_prefix;
                 (split; [first [left; solve [auto] | right; eauto]|]);
                 reflexivity|].
    all: cbn; intros o Ho; intuition (subst; reflexivity).
  - rewrite He in *.
    split_resolved R; destruct (acceptHandler i); find_call as_Submit S;
      congruence.
Qed.

(** EXTRA X6: a request writes no struct: the heap after it is the
    heap before it, so that the handler is installed after the request
    as it was before, and the next request finds the same fields. *)
Theorem request_leaves_instances (h : HandlerFunc) (i : loadLimiterMiddleware)
  (s1 s : State) (c : Context) :
  installed h i s1 -> later s1 s ->
  heap (final (h c s)) = heap s /\
  later s1 (final (h c s)) /\
  (forall c', heap (final (h c' (final (h c s)))) = heap s).
Proof.
  intros I L.
  assert (K : heap (final (h c s)) = heap s)
    by exact (request_keeps_heap h i s1 s c I L).
  assert (L' : later s1 (final (h c s))).
  { unfold later in *. rewrite K. exact L. }
  split; [exact K|]. split; [exact L'|].
  intros c'. rewrite (request_keeps_heap h i s1 _ c' I L'). exact K.
Qed.

(** EXTRA X7: a request calls [Submit] at most once and the key
    function at most once; the key function is called exactly when the
    load is positive and there is one; and every [Submit] is made on
    the limiter of the instance, with its load. *)
Theorem one_Submit_per_request (h : HandlerFunc) (i : loadLimiterMiddleware)
  (s1 s : State) (c : Context) :
  installed h i s1 -> later s1 s ->
  let t := events (h c s) in
  calls is_Submit t <= 1 /\
  calls is_KeyFunc t <= 1 /\
  (calls is_KeyFunc t = 1 <-> (0 < load i)%N /\ tenantKeyFunc i <> None) /\
  (forall l key m r,
     In (Called (goll_Submit l key m) r) t -> limiter i = Some l /\ m = load i).
Proof.
  intros I L. cbn zeta.
  assert (G : calls is_Submit (events (h c s)) <= 1 /\
              calls is_KeyFunc (events (h c s)) <= 1 /\
              (calls is_KeyFunc (events (h c s)) = 1 <->
               (0 < load i)%N /\ tenantKeyFunc i <> None)).
  { destruct (installed_later h i s1 s I L) as (a & -> & H & V).
    destruct (N.eq_0_gt_0_cases (load i)) as [Z|P].
    { rewrite (request_zero a i c s H Z). unfold call. cbn.
      split; [lia|]. split; [lia|]. split; [discriminate|].
      intros [X _]. rewrite Z in X. discriminate X. }
    paths a i c s H V P; rewrite Ce; clear Ce.
    1,2: destruct (errorHandler i); destruct Hx as [Hx _]; rewrite Hx.
    5,6: rewrite He.
    5: destruct (abortHandler i); destruct (RetryInAvailable res_).
    9: destruct (acceptHandler i).
    3-10: split_resolved R.
    all: rewrite Ef; cbn.
    all: split; [lia|]; split; [lia|].
    all: split; [intros X;
                 first [discriminate X | split; [exact P|discriminate]]
                |intros [_ X]; congruence]. }
  destruct G as (G1 & G2 & G3).
  split; [exact G1|]. split; [exact G2|]. split; [exact G3|].
  intros l key m r. apply (submitted_load h i s1 s c l key m r I L).
Qed.


(** EXTRA X9: the handler of [WithLoad] at the load the receiver
    already has is the handler of [Default] but for the struct it reads:
    on every request, from every later state, the two have the same
    result, the same trace and the same final state. *)
Theorem WithLoad_own_load_is_Default (a : nat) (i : loadLimiterMiddleware)
  (s : State) (hD hW : HandlerFunc) :
  heap s !! a = Some i ->
  result (Default (Some a) s) = Returned hD ->
  result (WithLoad (Some a) (load i) s) = Returned hW ->
  forall s' c,
    later (final (WithLoad (Some a) (load i) s)) s' ->
    hW c s' = hD c s'.
Proof.
  intros H D Wl s' c L.
  destruct (WithLoad_Default a i (load i) s H) as (_ & F & V & NV).
  destruct (Default_run a i s H) as (_ & _ & DV & DN).
  destruct (valid_dec i) as [Y|Y];
    [|destruct (panics_not_Returned _ _ (DN Y) D)].
  rewrite (V Y) in Wl. rewrite (DV Y) in D.
  injection Wl as <-. injection D as <-.
  assert (E : set_load (load i) i = i) by (destruct i; reflexivity).
  rewrite F, E in L.
  apply (request_by_value _ _ i).
  - apply (later_lookup _ _ _ _ L). cbn. apply lookup_snoc.
  - apply (later_lookup _ _ _ _ L). cbn. apply lookup_app_l_Some. exact H.
Qed.

(** EXTRA X10: [clone] copies every field: it returns a pointer to a
    new struct, at an address other than that of the receiver, which
    reads as the receiver does; the receiver is unchanged.  It does not
    validate: it succeeds on every struct. *)
Theorem clone_is_faithful (a : nat) (i : loadLimiterMiddleware) (s : State) :
  heap s !! a = Some i ->
  let o := clone (Some a) s in
  let a' := length (heap s) in
  result o = Returned (Some a') /\
  a' <> a /\
  result (deref (Some a') (final o)) = Returned i /\
  result (deref (Some a) (final o)) = Returned i /\
  length (heap (final o)) = S (length (heap s)) /\
  world (final o) = world s /\
  events o = [].
Proof.
  intros H. cbn zeta. unfold clone.
  rewrite (bind_deref a i _ s H). cbn.
  assert (E : {| limiter := limiter i; load := load i;
                 tenantKey := tenantKey i; tenantKeyFunc := tenantKeyFunc i;
                 acceptHandler := acceptHandler i;
                 abortHandler := abortHandler i;
                 errorHandler := errorHandler i |} = i)
    by (destruct i; reflexivity).
  rewrite E.
  split; [reflexivity|].
  split; [apply lookup_lt_Some in H; lia|].
  split; [unfold deref; cbn; rewrite lookup_snoc; reflexivity|].
  split; [unfold deref; cbn; rewrite (lookup_app_l_Some _ _ _ _ H);
          reflexivity|].
  split; [rewrite length_app; cbn; lia|].
  split; reflexivity.
Qed.


(** EXTRA X12: the delay in the [X-Retry-In] header of the default
    rejection is [RetryIn] cut down to whole milliseconds: for a
    [RetryIn] that is not negative, the header is the numeral of a
    number of milliseconds that is not negative, not longer than
    [RetryIn], and shorter by less than one millisecond. *)
Theorem retry_header_truncates (h : HandlerFunc) (i : loadLimiterMiddleware)
  (s1 s : State) (c : Context) (l : LoadLimiter) (key : string) (n : N)
  (res : SubmitResult) :
  installed h i s1 -> later s1 s -> abortHandler i = None ->
  In (Called (goll_Submit l key n) (res, None)) (events (h c s)) ->
  Accepted res = false -> RetryInAvailable res = true ->
  (0 <= RetryIn res)%Z ->
  exists ms,
    In (Called (gin_Header c "X-Retry-In" (Sprintf_v ms)) tt)
       (events (h c s)) /\
    (0 <= ms)%Z /\
    (ms * 1000000 <= RetryIn res < (ms + 1) * 1000000)%Z.
Proof.
  intros I L A S R0 RA NN.
  exists (Milliseconds (RetryIn res)). split.
  - destruct (installed_later h i s1 s I L) as (a & -> & H & V).
    destruct (N.eq_0_gt_0_cases (load i)) as [Z|P].
    { rewrite (request_zero a i c s H Z) in S. unfold call in S.
      find_call as_Submit S. }
    paths a i c s H V P; rewrite Ce in *; clear Ce.
    + destruct (errorHandler i); destruct Hx as [Hx _]; rewrite Hx in *;
        find_call as_Submit S.
    + destruct (errorHandler i); destruct Hx as [Hx _]; rewrite Hx in *;
        split_resolved R; find_call as_Submit S.
    + rewrite He in *. rewrite A in *.
      split_resolved R; destruct (RetryInAvailable res_) eqn:ER;
        find_call as_Submit S; try congruence; cbn;
        repeat (first [left; reflexivity | right]).
    + rewrite He in *.
      split_resolved R; destruct (acceptHandler i); find_call as_Submit S;
        congruence.
  - unfold Milliseconds.
    pose proof (Z.quot_rem' (RetryIn res) 1000000) as Q.
    pose proof (Z.rem_bound_pos (RetryIn res) 1000000 NN eq_refl) as B.
    pose proof (Z.quot_pos (RetryIn res) 1000000 NN eq_refl) as G.
    split; [exact G|]. lia.
Qed.

End Middleware.

Arguments heap {W} s.
Arguments world {W} s.
Arguments Build_State {W} heap world.
Arguments result {W A} o.
Arguments events {W A} o.
Arguments final {W A} o.
Arguments later {W} s1 s.
Arguments panics {W A} o.
Arguments continues {W A} o pre out.
Arguments NewLimiterMiddleware {W} config.
Arguments validateConfig {W} config.
Arguments deref {W} p.
Arguments clone {W} instance.

(** ** The properties at work, in the concrete environment *)

Ltac by_Default a :=
  match goal with
  | |- installed _ _ _ _ ?s =>
      apply (installed_Default Demo.World Demo.respond _ (Some a) s);
      reflexivity
  end.

Ltac same_heap := exists []; reflexivity.

Lemma dispatch_on_Accepted_witness :
  let h := routeLoadLimiter_func1 Demo.World Demo.respond (Some 0) in
  let s : State Demo.World := {| heap := Demo.routes; world := 0%N |} in
  let submit := Called (goll_Submit 0 "10.0.0.1" 1) (Demo.granted, None) in
  installed Demo.World Demo.respond h (Demo.instance Demo.by_address) s /\
  later s s /\
  In submit (events (h 5 s)) /\
  exists pre,
    resolved (Demo.instance Demo.by_address) 5 pre "10.0.0.1" /\
    events (h 5 s)
    = pre ++ [submit; Entered handleAccept_; Called (gin_Next 5) tt].
Proof.
  cbn zeta.
  assert (I : installed Demo.World Demo.respond
                (routeLoadLimiter_func1 Demo.World Demo.respond (Some 0))
                (Demo.instance Demo.by_address)
                {| heap := Demo.routes; world := 0%N |}) by by_Default 0.
  assert (L : later {| heap := Demo.routes; world := 0%N |}
                    {| heap := Demo.routes; world := 0%N |}) by same_heap.
  assert (S : In (Called (goll_Submit 0 "10.0.0.1" 1) (Demo.granted, None))
                (events (routeLoadLimiter_func1 Demo.World Demo.respond
                           (Some 0) 5 {| heap := Demo.routes; world := 0%N |})))
    by (right; left; reflexivity).
  split; [exact I|]. split; [exact L|]. split; [exact S|].
  destruct (dispatch_on_Accepted Demo.World Demo.respond _ _ _ _ 5 _ _ _ _ I L S)
    as (pre & R & _ & E).
  exists pre. split; [exact R|exact E].
Defined.

Lemma exactly_one_outcome_witness :
  let h := routeLoadLimiter_func1 Demo.World Demo.respond (Some 0) in
  let s : State Demo.World := {| heap := Demo.routes; world := 10%N |} in
  let t := events (h 5 s) in
  installed Demo.World Demo.respond h (Demo.instance Demo.by_address) s /\
  later s s /\
  (0 < load (Demo.instance Demo.by_address))%N /\
  fires handleAccept_ t + fires handleRejection_ t + fires handleError_ t = 1.
Proof.
  cbn zeta.
  assert (I : installed Demo.World Demo.respond
                (routeLoadLimiter_func1 Demo.World Demo.respond (Some 0))
                (Demo.instance Demo.by_address)
                {| heap := Demo.routes; world := 10%N |}) by by_Default 0.
  assert (L : later {| heap := Demo.routes; world := 10%N |}
                    {| heap := Demo.routes; world := 10%N |}) by same_heap.
  assert (P : (0 < load (Demo.instance Demo.by_address))%N) by reflexivity.
  split; [exact I|]. split; [exact L|]. split; [exact P|].
  exact (proj1 (exactly_one_outcome Demo.World Demo.respond _ _ _ _ 5 I L P)).
Defined.

Lemma installation_validates_witness :
  let s0 : State Demo.World := {| heap := []; world := 0%N |} in
  let s := final (NewLimiterMiddleware Demo.by_address s0) in
  result (NewLimiterMiddleware Demo.by_address s0) = Returned (Some 0) /\
  later s s /\
  exists h h',
    result (Default Demo.World Demo.respond (Some 0) s) = Returned h /\
    result (WithLoad Demo.World Demo.respond (Some 0) 3 s) = Returned h'.
Proof.
  cbn zeta.
  assert (N : result (NewLimiterMiddleware Demo.by_address
                        {| heap := []; world := 0%N |})
              = Returned (Some 0)) by reflexivity.
  assert (L : later
                (final (NewLimiterMiddleware Demo.by_address
                          {| heap := []; world := 0%N : Demo.World |}))
                (final (NewLimiterMiddleware Demo.by_address
                          {| heap := []; world := 0%N : Demo.World |})))
    by same_heap.
  split; [exact N|]. split; [exact L|].
  destruct (installation_validates Demo.World Demo.respond _ _ _ _ 3 N L)
    as (_ & _ & _ & _ & Y & _).
  apply Y. unfold misconfigured. cbn.
  intros [X|[[_ X]|[X _]]]; [discriminate X|discriminate X|exact (X eq_refl)].
Defined.

Lemma zero_load_continues_witness :
  let s0 : State Demo.World := {| heap := Demo.routes; world := 0%N |} in
  let s := final (WithLoad Demo.World Demo.respond (Some 0) 0 s0) in
  let h := routeLoadLimiter_func1 Demo.World Demo.respond (Some 4) in
  let i := set_load 0 (Demo.instance Demo.by_address) in
  installed Demo.World Demo.respond h i s /\
  later s s /\
  load i = 0%N /\
  events (h 5 s) = [Called (gin_Next 5) tt].
Proof.
  cbn zeta.
  assert (I : installed Demo.World Demo.respond
                (routeLoadLimiter_func1 Demo.World Demo.respond (Some 4))
                (set_load 0 (Demo.instance Demo.by_address))
                (final (WithLoad Demo.World Demo.respond (Some 0) 0
                          {| heap := Demo.routes; world := 0%N |}))).
  { apply (installed_WithLoad Demo.World Demo.respond _ (Some 0) 0
             {| heap := Demo.routes; world := 0%N |}); reflexivity. }
  assert (L : later
                (final (WithLoad Demo.World Demo.respond (Some 0) 0
                          {| heap := Demo.routes; world := 0%N |}))
                (final (WithLoad Demo.World Demo.respond (Some 0) 0
                          {| heap := Demo.routes; world := 0%N |})))
    by same_heap.
  assert (Z : load (set_load 0 (Demo.instance Demo.by_address)) = 0%N)
    by reflexivity.
  split; [exact I|]. split; [exact L|]. split; [exact Z|].
  exact (proj1 (zero_load_continues Demo.World Demo.respond _ _ _ _ 5 I L Z)).
Defined.

Lemma errors_reach_error_path_witness :
  let h := routeLoadLimiter_func1 Demo.World Demo.respond (Some 2) in
  let s : State Demo.World := {| heap := Demo.routes; world := 0%N |} in
  let t := events (h 5 s) in
  installed Demo.World Demo.respond h (Demo.instance Demo.failing_key) s /\
  later s s /\
  (0 < load (Demo.instance Demo.failing_key))%N /\
  In (Called (call_KeyFunc 1 5) ("", Some (errors_New "no client address"))) t /\
  fires handleError_ t = 1 /\ fires handleRejection_ t = 0.
Proof.
  cbn zeta.
  assert (I : installed Demo.World Demo.respond
                (routeLoadLimiter_func1 Demo.World Demo.respond (Some 2))
                (Demo.instance Demo.failing_key)
                {| heap := Demo.routes; world := 0%N |}) by by_Default 2.
  assert (L : later {| heap := Demo.routes; world := 0%N |}
                    {| heap := Demo.routes; world := 0%N |}) by same_heap.
  assert (P : (0 < load (Demo.instance Demo.failing_key))%N) by reflexivity.
  assert (S : In (Called (call_KeyFunc 1 5)
                    ("", Some (errors_New "no client address")))
                (events (routeLoadLimiter_func1 Demo.World Demo.respond
                           (Some 2) 5 {| heap := Demo.routes; world := 0%N |})))
    by (left; reflexivity).
  split; [exact I|]. split; [exact L|]. split; [exact P|]. split; [exact S|].
  destruct (errors_reach_error_path Demo.World Demo.respond _ _ _ _ 5 I L P)
    as (K & _ & _).
  destruct (K _ _ _ S) as (A & B & _). exact (conj A B).
Defined.

Lemma default_rejection_witness :
  let h := routeLoadLimiter_func1 Demo.World Demo.respond (Some 0) in
  let s : State Demo.World := {| heap := Demo.routes; world := 10%N |} in
  let submit := Called (goll_Submit 0 "10.0.0.1" 1) (Demo.full, None) in
  installed Demo.World Demo.respond h (Demo.instance Demo.by_address) s /\
  later s s /\
  abortHandler (Demo.instance Demo.by_address) = None /\
  In submit (events (h 5 s)) /\
  Accepted Demo.full = false /\
  In (Called (gin_Header 5 "X-Retry-In" "1500") tt) (events (h 5 s)).
Proof.
  cbn zeta.
  assert (I : installed Demo.World Demo.respond
                (routeLoadLimiter_func1 Demo.World Demo.respond (Some 0))
                (Demo.instance Demo.by_address)
                {| heap := Demo.routes; world := 10%N |}) by by_Default 0.
  assert (L : later {| heap := Demo.routes; world := 10%N |}
                    {| heap := Demo.routes; world := 10%N |}) by same_heap.
  assert (A : abortHandler (Demo.instance Demo.by_address) = None)
    by reflexivity.
  assert (S : In (Called (goll_Submit 0 "10.0.0.1" 1) (Demo.full, None))
                (events (routeLoadLimiter_func1 Demo.World Demo.respond
                           (Some 0) 5 {| heap := Demo.routes; world := 10%N |})))
    by (right; left; reflexivity).
  assert (R : Accepted Demo.full = false) by reflexivity.
  split; [exact I|]. split; [exact L|]. split; [exact A|]. split; [exact S|].
  split; [exact R|].
  destruct (default_rejection Demo.World Demo.respond _ _ _ _ 5 _ _ _ _
              I L A S R) as (_ & _ & Y & _).
  exact (proj2 Y eq_refl).
Defined.

Lemma error_handling_witness :
  let h := routeLoadLimiter_func1 Demo.World Demo.respond (Some 2) in
  let s : State Demo.World := {| heap := Demo.routes; world := 0%N |} in
  let err := errors_New "no client address" in
  installed Demo.World Demo.respond h (Demo.instance Demo.failing_key) s /\
  later s s /\
  In (Called (call_KeyFunc 1 5) ("", Some err)) (events (h 5 s)) /\
  result (h 5 s)
  = Panicked (fmt_Errorf_w "error submitting load request: " err).
Proof.
  cbn zeta.
  assert (I : installed Demo.World Demo.respond
                (routeLoadLimiter_func1 Demo.World Demo.respond (Some 2))
                (Demo.instance Demo.failing_key)
                {| heap := Demo.routes; world := 0%N |}) by by_Default 2.
  assert (L : later {| heap := Demo.routes; world := 0%N |}
                    {| heap := Demo.routes; world := 0%N |}) by same_heap.
  assert (S : In (Called (call_KeyFunc 1 5)
                    ("", Some (errors_New "no client address")))
                (events (routeLoadLimiter_func1 Demo.World Demo.respond
                           (Some 2) 5 {| heap := Demo.routes; world := 0%N |})))
    by (left; reflexivity).
  split; [exact I|]. split; [exact L|]. split; [exact S|].
  exact (proj1 (error_handling Demo.World Demo.respond _ _ _ _ 5 _ I L
                  (or_introl (ex_intro _ 1 (ex_intro _ "" S))))).
Defined.

Lemma WithLoad_copies_witness :
  let s : State Demo.World := {| heap := Demo.routes; world := 0%N |} in
  let o := WithLoad Demo.World Demo.respond (Some 0) 5 s in
  heap s !! 0 = Some (Demo.instance Demo.by_address) /\
  heap (final o) !! 0 = Some (Demo.instance Demo.by_address) /\
  heap (final o)
  = Demo.routes ++ [set_load 5 (Demo.instance Demo.by_address)].
Proof.
  cbn zeta.
  assert (H : heap {| heap := Demo.routes; world := 0%N : Demo.World |} !! 0
              = Some (Demo.instance Demo.by_address)) by reflexivity.
  split; [exact H|].
  destruct (WithLoad_copies Demo.World Demo.respond 0 _ 5 7 _ H)
    as (A & _ & _ & B & _).
  split; [exact B|exact A].
Defined.

Lemma empty_tenant_key_is_submitted_witness :
  let h := routeLoadLimiter_func1 Demo.World Demo.respond (Some 3) in
  let s : State Demo.World := {| heap := Demo.routes; world := 0%N |} in
  installed Demo.World Demo.respond h (Demo.instance Demo.anonymous) s /\
  later s s /\
  In (Called (call_KeyFunc 2 5) ("", None)) (events (h 5 s)) /\
  exists l r post,
    limiter (Demo.instance Demo.anonymous) = Some l /\
    events (h 5 s)
    = Called (call_KeyFunc 2 5) ("", None)
      :: Called (goll_Submit l "" 1) r :: post.
Proof.
  cbn zeta.
  assert (I : installed Demo.World Demo.respond
                (routeLoadLimiter_func1 Demo.World Demo.respond (Some 3))
                (Demo.instance Demo.anonymous)
                {| heap := Demo.routes; world := 0%N |}) by by_Default 3.
  assert (L : later {| heap := Demo.routes; world := 0%N |}
                    {| heap := Demo.routes; world := 0%N |}) by same_heap.
  assert (S : In (Called (call_KeyFunc 2 5) ("", None))
                (events (routeLoadLimiter_func1 Demo.World Demo.respond
                           (Some 3) 5 {| heap := Demo.routes; world := 0%N |})))
    by (left; reflexivity).
  split; [exact I|]. split; [exact L|]. split; [exact S|].
  exact (proj1 (empty_tenant_key_is_submitted Demo.World Demo.respond
                  _ _ _ _ 5 I L) 2 S).
Defined.

Lemma empty_TenantKey_is_unspecified_witness :
  let s0 : State Demo.World := {| heap := []; world := 0%N |} in
  let s := final (NewLimiterMiddleware Demo.unkeyed s0) in
  result (NewLimiterMiddleware Demo.unkeyed s0) = Returned (Some 0) /\
  later s s /\
  TenantKey Demo.unkeyed = "" /\
  result (Default Demo.World Demo.respond (Some 0) s)
  = Panicked (errors_New "one of TenantKey or TenantKeyFunc is required").
Proof.
  cbn zeta.
  assert (N : result (NewLimiterMiddleware Demo.unkeyed
                        {| heap := []; world := 0%N |})
              = Returned (Some 0)) by reflexivity.
  assert (L : later
                (final (NewLimiterMiddleware Demo.unkeyed
                          {| heap := []; world := 0%N : Demo.World |}))
                (final (NewLimiterMiddleware Demo.unkeyed
                          {| heap := []; world := 0%N : Demo.World |})))
    by same_heap.
  assert (HK : TenantKey Demo.unkeyed = "") by reflexivity.
  split; [exact N|]. split; [exact L|]. split; [exact HK|].
  destruct (empty_TenantKey_is_unspecified Demo.World Demo.respond _ _ _ _
              N L HK) as (Y & _).
  destruct (Y eq_refl) as (_ & Z).
  apply Z. discriminate.
Defined.

(** *** The further properties *)

Lemma Default_error_precedence_witness :
  let s : State Demo.World :=
    {| heap := [Demo.instance Demo.nothing]; world := 0%N |} in
  heap s !! 0 = Some (Demo.instance Demo.nothing) /\
  result (Default Demo.World Demo.respond (Some 0) s)
  = Panicked (errors_New "limiter is required").
Proof.
  cbn zeta.
  assert (H : heap {| heap := [Demo.instance Demo.nothing];
                      world := 0%N : Demo.World |} !! 0
              = Some (Demo.instance Demo.nothing)) by reflexivity.
  split; [exact H|].
  destruct (Default_error_precedence Demo.World Demo.respond 0 _ _ H)
    as (_ & _ & Y & _).
  exact (Y eq_refl).
Defined.


Lemma custom_abort_handler_witness :
  let h := routeLoadLimiter_func1 Demo.World Demo.respond (Some 1) in
  let s : State Demo.World := {| heap := Demo.routes; world := 10%N |} in
  let submit := Called (goll_Submit 0 "all" 1) (Demo.full, None) in
  installed Demo.World Demo.respond h (Demo.instance Demo.global) s /\
  later s s /\
  abortHandler (Demo.instance Demo.global) = Some 8 /\
  In submit (events (h 5 s)) /\
  Accepted Demo.full = false /\
  exists pre,
    resolved (Demo.instance Demo.global) 5 pre "all" /\
    events (h 5 s)
    = pre ++ [submit; Entered handleRejection_;
              Called (call_ResultFunc 8 5 Demo.full) tt].
Proof.
  cbn zeta.
  assert (I : installed Demo.World Demo.respond
                (routeLoadLimiter_func1 Demo.World Demo.respond (Some 1))
                (Demo.instance Demo.global)
                {| heap := Demo.routes; world := 10%N |}) by by_Default 1.
  assert (L : later {| heap := Demo.routes; world := 10%N |}
                    {| heap := Demo.routes; world := 10%N |}) by same_heap.
  assert (A : abortHandler (Demo.instance Demo.global) = Some 8)
    by reflexivity.
  assert (S : In (Called (goll_Submit 0 "all" 1) (Demo.full, None))
                (events (routeLoadLimiter_func1 Demo.World Demo.respond
                           (Some 1) 5 {| heap := Demo.routes; world := 10%N |})))
    by (left; reflexivity).
  assert (R : Accepted Demo.full = false) by reflexivity.
  split; [exact I|]. split; [exact L|]. split; [exact A|]. split; [exact S|].
  split; [exact R|].
  destruct (custom_abort_handler Demo.World Demo.respond _ _ _ _ 5 _ _ _ _ _
              I L A S R) as (_ & Y & _).
  exact Y.
Defined.

Lemma request_leaves_instances_witness :
  let h := routeLoadLimiter_func1 Demo.World Demo.respond (Some 0) in
  let s : State Demo.World := {| heap := Demo.routes; world := 0%N |} in
  installed Demo.World Demo.respond h (Demo.instance Demo.by_address) s /\
  later s s /\
  heap (final (h 5 s)) = Demo.routes.
Proof.
  cbn zeta.
  assert (I : installed Demo.World Demo.respond
                (routeLoadLimiter_func1 Demo.World Demo.respond (Some 0))
                (Demo.instance Demo.by_address)
                {| heap := Demo.routes; world := 0%N |}) by by_Default 0.
  assert (L : later {| heap := Demo.routes; world := 0%N |}
                    {| heap := Demo.routes; world := 0%N |}) by same_heap.
  split; [exact I|]. split; [exact L|].
  exact (proj1 (request_leaves_instances Demo.World Demo.respond
                  _ _ _ _ 5 I L)).
Defined.

Lemma one_Submit_per_request_witness :
  let h := routeLoadLimiter_func1 Demo.World Demo.respond (Some 0) in
  let s : State Demo.World := {| heap := Demo.routes; world := 0%N |} in
  installed Demo.World Demo.respond h (Demo.instance Demo.by_address) s /\
  later s s /\
  calls is_Submit (events (h 5 s)) <= 1 /\
  calls is_KeyFunc (events (h 5 s)) <= 1.
Proof.
  cbn zeta.
  assert (I : installed Demo.World Demo.respond
                (routeLoadLimiter_func1 Demo.World Demo.respond (Some 0))
                (Demo.instance Demo.by_address)
                {| heap := Demo.routes; world := 0%N |}) by by_Default 0.
  assert (L : later {| heap := Demo.routes; world := 0%N |}
                    {| heap := Demo.routes; world := 0%N |}) by same_heap.
  split; [exact I|]. split; [exact L|].
  destruct (one_Submit_per_request Demo.World Demo.respond _ _ _ _ 5 I L)
    as (A & B & _).
  exact (conj A B).
Defined.


Lemma WithLoad_own_load_is_Default_witness :
  let s : State Demo.World := {| heap := Demo.routes; world := 0%N |} in
  let hD := routeLoadLimiter_func1 Demo.World Demo.respond (Some 0) in
  let hW := routeLoadLimiter_func1 Demo.World Demo.respond (Some 4) in
  let s' := final (WithLoad Demo.World Demo.respond (Some 0) 1 s) in
  heap s !! 0 = Some (Demo.instance Demo.by_address) /\
  result (Default Demo.World Demo.respond (Some 0) s) = Returned hD /\
  result (WithLoad Demo.World Demo.respond (Some 0) 1 s) = Returned hW /\
  later s' s' /\
  hW 5 s' = hD 5 s'.
Proof.
  cbn zeta.
  assert (H : heap {| heap := Demo.routes; world := 0%N : Demo.World |} !! 0
              = Some (Demo.instance Demo.by_address)) by reflexivity.
  assert (D : result (Default Demo.World Demo.respond (Some 0)
                        {| heap := Demo.routes; world := 0%N |})
              = Returned (routeLoadLimiter_func1 Demo.World Demo.respond
                            (Some 0))) by reflexivity.
  assert (Wl : result (WithLoad Demo.World Demo.respond (Some 0)
                         (load (Demo.instance Demo.by_address))
                         {| heap := Demo.routes; world := 0%N |})
               = Returned (routeLoadLimiter_func1 Demo.World Demo.respond
                             (Some 4))) by reflexivity.
  assert (L : later
                (final (WithLoad Demo.World Demo.respond (Some 0)
                          (load (Demo.instance Demo.by_address))
                          {| heap := Demo.routes; world := 0%N |}))
                (final (WithLoad Demo.World Demo.respond (Some 0)
                          (load (Demo.instance Demo.by_address))
                          {| heap := Demo.routes; world := 0%N |})))
    by same_heap.
  split; [exact H|]. split; [exact D|]. split; [exact Wl|]. split; [exact L|].
  exact (WithLoad_own_load_is_Default Demo.World Demo.respond 0 _ _ _ _
           H D Wl _ 5 L).
Defined.

Lemma clone_is_faithful_witness :
  let s : State Demo.World := {| heap := Demo.routes; world := 0%N |} in
  heap s !! 1 = Some (Demo.instance Demo.global) /\
  result (clone (Some 1) s) = Returned (Some 4) /\
  result (deref (Some 4) (final (clone (Some 1) s)))
  = Returned (Demo.instance Demo.global).
Proof.
  cbn zeta.
  assert (H : heap {| heap := Demo.routes; world := 0%N : Demo.World |} !! 1
              = Some (Demo.instance Demo.global)) by reflexivity.
  split; [exact H|].
  destruct (clone_is_faithful Demo.World 1 _ _ H) as (A & _ & B & _).
  exact (conj A B).
Defined.


Lemma retry_header_truncates_witness :
  let h := routeLoadLimiter_func1 Demo.World Demo.respond (Some 0) in
  let s : State Demo.World := {| heap := Demo.routes; world := 10%N |} in
  let submit := Called (goll_Submit 0 "10.0.0.1" 1) (Demo.full, None) in
  installed Demo.World Demo.respond h (Demo.instance Demo.by_address) s /\
  later s s /\
  abortHandler (Demo.instance Demo.by_address) = None /\
  In submit (events (h 5 s)) /\
  Accepted Demo.full = false /\
  RetryInAvailable Demo.full = true /\
  (0 <= RetryIn Demo.full)%Z /\
  exists ms,
    In (Called (gin_Header 5 "X-Retry-In" (Sprintf_v ms)) tt)
       (events (h 5 s)) /\
    (0 <= ms)%Z /\
    (ms * 1000000 <= 1500000000 < (ms + 1) * 1000000)%Z.
Proof.
  cbn zeta.
  assert (I : installed Demo.World Demo.respond
                (routeLoadLimiter_func1 Demo.World Demo.respond (Some 0))
                (Demo.instance Demo.by_address)
                {| heap := Demo.routes; world := 10%N |}) by by_Default 0.
  assert (L : later {| heap := Demo.routes; world := 10%N |}
                    {| heap := Demo.routes; world := 10%N |}) by same_heap.
  assert (A : abortHandler (Demo.instance Demo.by_address) = None)
    by reflexivity.
  assert (S : In (Called (goll_Submit 0 "10.0.0.1" 1) (Demo.full, None))
                (events (routeLoadLimiter_func1 Demo.World Demo.respond
                           (Some 0) 5 {| heap := Demo.routes; world := 10%N |})))
    by (right; left; reflexivity).
  assert (R : Accepted Demo.full = false) by reflexivity.
  assert (RA : RetryInAvailable Demo.full = true) by reflexivity.
  assert (NN : (0 <= RetryIn Demo.full)%Z) by (cbn; lia).
  split; [exact I|]. split; [exact L|]. split; [exact A|]. split; [exact S|].
  split; [exact R|]. split; [exact RA|]. split; [exact NN|].
  exact (retry_header_truncates Demo.World Demo.respond _ _ _ _ 5 _ _ _ _
           I L A S R RA NN).
Defined.
